(** * Cook & Connect: ingredient normalisation, recipe matching, recipe
    assembly, memory deletion and usage analytics of [app.py].

    The development is a shallow embedding: every Python function of the
    matching and analytics core becomes a Rocq function of the same name.
    Python sets are [gset string], the [Counter] of the analytics route is an
    insertion-ordered association list, JSON objects are records whose
    optional keys are [option] fields, and the routes that can raise return a
    [result].  The recipe catalogue [RECIPE_DB] is read from [recipes.json]
    at start-up; it is a parameter of every function that consults it.

    Strings are byte strings; [lower] and [strip] are Python's [str.lower]
    and [str.strip] on ASCII text. *)

From Stdlib Require Import ZArith QArith List String Ascii Sorted Permutation.
From stdpp Require Import gmap strings list.

Open Scope string_scope.
Open Scope Z_scope.
Open Scope nat_scope.
Open Scope list_scope.

(** ** Python strings *)

(** [c.lower()] for one character: [A]..[Z] move to [a]..[z]. *)
Definition lower_char (c : ascii) : ascii :=
  let n := N_of_ascii c in
  if ((65 <=? n) && (n <=? 90))%N then ascii_of_N (n + 32) else c.

(** [s.lower()]. *)
Fixpoint lower (s : string) : string :=
  match s with
  | EmptyString => EmptyString
  | String c s' => String (lower_char c) (lower s')
  end.

(** The ASCII characters for which [str.isspace] holds: tab, line feed,
    vertical tab, form feed, carriage return, the four separators
    [0x1c]..[0x1f] and the space. *)
Definition is_space (c : ascii) : bool :=
  let n := N_of_ascii c in
  (((9 <=? n) && (n <=? 13)) || ((28 <=? n) && (n <=? 32)))%N.

Fixpoint lstrip (s : string) : string :=
  match s with
  | EmptyString => EmptyString
  | String c s' => if is_space c then lstrip s' else s
  end.

Fixpoint rstrip (s : string) : string :=
  match s with
  | EmptyString => EmptyString
  | String c s' =>
      match rstrip s' with
      | EmptyString => if is_space c then EmptyString else String c EmptyString
      | t => String c t
      end
  end.

(** [s.strip()]. *)
Definition strip (s : string) : string := rstrip (lstrip s).

(** A string that does not begin with whitespace. *)
Definition no_leading_space (s : string) : bool :=
  match s with
  | EmptyString => true
  | String c _ => negb (is_space c)
  end.

(** ** Ingredient normalisation *)

Definition INGREDIENT_MAP : gmap string string :=
  list_to_map
    [ ("bell pepper", "capsicum");
      ("green chilli", "chilli");
      ("red chilli", "chilli");
      ("scallion", "onion");
      ("spring onion", "onion");
      ("coriander leaves", "coriander");
      ("cilantro", "coriander");
      ("eggplant", "brinjal") ].

(** The body of the loop of [normalize_ingredients]:
    [ing = ing.lower().strip()] and then [INGREDIENT_MAP.get(ing, ing)]. *)
Definition normalize_one (ing : string) : string :=
  let ing := strip (lower ing) in
  default ing (INGREDIENT_MAP !! ing).

(** [normalize_ingredients]: the list [normalized] is built entry by entry
    and [list(set(normalized))] is returned.  Python leaves the iteration
    order of a set unspecified; [elements] fixes one enumeration, and no
    statement below depends on which. *)
Definition normalize_ingredients (ingredients : list string) : list string :=
  let normalized :=
    fold_left (fun normalized ing => normalized ++ [normalize_one ing])
              ingredients [] in
  elements (list_to_set normalized : gset string).

(** ** The data model *)

(** A step of a recipe as it is stored in [recipes.json]: a JSON object with
    the optional keys [text] and [time], or any other JSON value (here a bare
    string), which the assembler ignores. *)
Inductive Step : Type :=
  | StepDict (text : option string) (time : option Z)
  | StepOther (raw : string).

(** A catalogue entry.  A field is [None] when the key is absent from the JSON
    object, which is what [recipe.get(key)] reports as [None] and
    [recipe.get(key, d)] as [d]; explicit [null]s are outside the schema. *)
Record Recipe : Type := {
  recipe_name : option string;
  recipe_ingredients : option (list string);
  recipe_preview : option string;
  recipe_difficulty : option string;
  recipe_time : option Z;
  recipe_calories : option Z;
  recipe_steps : option (list Step)
}.

(** The dictionary appended to [matches] by [find_all_possible_recipes]. *)
Record Match : Type := {
  match_name : option string;
  match_preview : string;
  match_difficulty : option string;
  match_time : option Z;
  match_calories : option Z;
  match_missing : list string;
  match_missing_count : nat;
  match_difficulty_rank : nat
}.

(** The literal dictionary that [get_dish_options] substitutes for an empty
    candidate list: it has the key [ai_generated] and lacks [preview],
    [missing_count] and [difficulty_rank]. *)
Record Generated : Type := {
  gen_name : string;
  gen_difficulty : string;
  gen_time : Z;
  gen_calories : Z;
  gen_missing : list string;
  gen_ai_generated : bool
}.

Inductive Dish : Type :=
  | DishMatch (m : Match)
  | DishGenerated (g : Generated).

Record DishOptions : Type := {
  options_count : nat;
  options_dishes : list Dish
}.

(** The JSON body of a [/get-dish-options] or [/generate-recipe] request:
    [data.get("ingredients", [])] and [data.get("selected_dish")]. *)
Record RequestData : Type := {
  data_ingredients : option (list string);
  data_selected_dish : option string
}.

(** An entry of [timed_steps]. *)
Record TimedStep : Type := {
  step_description : option string;
  step_time : Z
}.

(** The JSON object returned by [/generate-recipe]. *)
Record RecipeResponse : Type := {
  resp_name : option string;
  resp_ingredients : option (list string);
  resp_calories : option Z;
  resp_difficulty : option string;
  resp_steps : list TimedStep;
  resp_total_time : Z
}.

(** ** [list.sort(key=...)] *)

(** Python's [list.sort] is stable and compares keys with [<].  Every stable
    sort computes the same list, so it is modelled by the insertion sort that
    puts an element in front of the first later element whose key is not
    smaller. *)
Section ListSort.
Context {A K : Type} (key : A -> K) (lt : K -> K -> bool).

Fixpoint sort_insert (x : A) (sorted : list A) : list A :=
  match sorted with
  | [] => [x]
  | y :: rest =>
      if lt (key y) (key x) then y :: sort_insert x rest
      else x :: y :: rest
  end.

Definition list_sort (l : list A) : list A := foldr sort_insert [] l.

(** [x] may stand before [y] in a sorted list. *)
Definition sorted_le (x y : A) : Prop := lt (key y) (key x) = false.
End ListSort.

(** [<] on the key tuples [(missing_count, difficulty_rank, time or 999)]:
    the first differing component decides. *)
Definition key_lt (a b : nat * nat * Z) : bool :=
  let '(m1, d1, t1) := a in
  let '(m2, d2, t2) := b in
  if m1 <? m2 then true
  else if m2 <? m1 then false
  else if d1 <? d2 then true
  else if d2 <? d1 then false
  else (t1 <? t2)%Z.

(** [x or 999] for an optional number: [None] and [0] are falsy. *)
Definition time_or_999 (t : option Z) : Z :=
  match t with
  | Some t => if (t =? 0)%Z then 999%Z else t
  | None => 999%Z
  end.

(** The [lambda] handed to [matches.sort]. *)
Definition sort_key (x : Match) : nat * nat * Z :=
  (match_missing_count x, match_difficulty_rank x, time_or_999 (match_time x)).

(** ** Recipe matching *)

(** The local dictionary [difficulty_rank] of [find_all_possible_recipes]. *)
Definition difficulty_rank : gmap string nat :=
  list_to_map [ ("Easy", 0); ("Medium", 1); ("Hard", 2) ].

(** [difficulty_rank.get(recipe.get("difficulty"), 3)]. *)
Definition difficulty_rank_get (d : option string) : nat :=
  match d with
  | Some d => default 3 (difficulty_rank !! d)
  | None => 3
  end.

(** [set(normalize_ingredients(recipe.get("ingredients", [])))]. *)
Definition recipe_set_of (recipe : Recipe) : gset string :=
  list_to_set (normalize_ingredients (default [] (recipe_ingredients recipe))).

(** One iteration of the loop of [find_best_recipe] on the pair
    [(best_recipe, best_score)]. *)
Definition best_step (user_set : gset string) (st : option Recipe * nat)
    (recipe : Recipe) : option Recipe * nat :=
  let '(best_recipe, best_score) := st in
  let recipe_set := recipe_set_of recipe in
  let score := size (recipe_set ∩ user_set) in
  if best_score <? score then (Some recipe, score)
  else (best_recipe, best_score).

(** The dictionary that [find_all_possible_recipes] appends for a recipe
    that passes its test. *)
Definition match_entry (user_set : gset string) (recipe : Recipe) : Match :=
  let recipe_set := recipe_set_of recipe in
  let missing := recipe_set ∖ user_set in
  {| match_name := recipe_name recipe;
     match_preview := default "" (recipe_preview recipe);
     match_difficulty := recipe_difficulty recipe;
     match_time := recipe_time recipe;
     match_calories := recipe_calories recipe;
     match_missing := elements missing;
     match_missing_count := size missing;
     match_difficulty_rank := difficulty_rank_get (recipe_difficulty recipe) |}.

Section Catalogue.
(** The contents of [recipes.json]. *)
Variable RECIPE_DB : list Recipe.

(** [find_best_recipe]: the loop carries [(best_recipe, best_score)],
    starting from [(None, 0)]. *)
Definition find_best_recipe (user_ingredients : list string) : option Recipe :=
  let user_set : gset string := list_to_set user_ingredients in
  fst (fold_left (best_step user_set) RECIPE_DB (None, 0)).

(** One iteration of the loop of [find_all_possible_recipes].  The ratio
    [len(common) / len(recipe_set)] is a quotient of two set sizes and
    [0.6] the double nearest to 3/5; IEEE division rounds correctly and
    monotonically, so for sets of fewer than 2^50 elements the comparison
    of doubles agrees with the comparison of the exact rationals, which is
    what is written here. *)
Definition match_step (user_set : gset string) (matches : list Match)
    (recipe : Recipe) : list Match :=
  let recipe_set := recipe_set_of recipe in
  let common := recipe_set ∩ user_set in
  let missing := recipe_set ∖ user_set in
  if size recipe_set =? 0 then matches
  else
    let match_ratio : Q := Z.of_nat (size common) # Pos.of_nat (size recipe_set) in
    if Qle_bool (6 # 10) match_ratio && (size missing <=? 1) then
      matches ++ [match_entry user_set recipe]
    else matches.

Definition find_all_possible_recipes (user_ingredients : list string)
    : list Match :=
  let user_set : gset string :=
    list_to_set (normalize_ingredients user_ingredients) in
  let matches := fold_left (match_step user_set) RECIPE_DB [] in
  list_sort sort_key key_lt matches.

(** ** [/get-dish-options] *)

Definition quick_kitchen_stir_fry : Generated :=
  {| gen_name := "Quick Kitchen Stir Fry";
     gen_difficulty := "Easy";
     gen_time := 15;
     gen_calories := 250;
     gen_missing := [];
     gen_ai_generated := true |}.

Definition get_dish_options (data : RequestData) : DishOptions :=
  let ingredients :=
    normalize_ingredients (default [] (data_ingredients data)) in
  let dishes := DishMatch <$> find_all_possible_recipes ingredients in
  let dishes :=
    match dishes with
    | [] => [DishGenerated quick_kitchen_stir_fry]
    | _ => dishes
    end in
  {| options_count := length dishes; options_dishes := dishes |}.

(** ** [/generate-recipe] *)

(** [r.get("name", "").strip().lower() == selected_dish.strip().lower()]. *)
Definition name_matches (selected_dish : string) (r : Recipe) : bool :=
  String.eqb (lower (strip (default "" (recipe_name r))))
             (lower (strip selected_dish)).

(** The [if selected_dish: ... else: ...] block.  [selected_dish] is
    [data.get("selected_dish")]; [None] and the empty string are falsy. *)
Definition select_recipe (selected_dish : option string)
    (ingredients : list string) : option Recipe :=
  match selected_dish with
  | Some (String _ _ as selected_dish) =>
      List.find (name_matches selected_dish) RECIPE_DB
  | _ => find_best_recipe ingredients
  end.

(** [not recipe]: [None], or a dictionary without any key. *)
Definition recipe_is_falsy (recipe : option Recipe) : bool :=
  match recipe with
  | None => true
  | Some r =>
      match recipe_name r, recipe_ingredients r, recipe_preview r,
            recipe_difficulty r, recipe_time r, recipe_calories r,
            recipe_steps r with
      | None, None, None, None, None, None, None => true
      | _, _, _, _, _, _, _ => false
      end
  end.

Definition custom_dish (ingredients : list string) : Recipe :=
  {| recipe_name := Some "Custom Dish";
     recipe_ingredients := Some ingredients;
     recipe_preview := None;
     recipe_difficulty := Some "Easy";
     recipe_time := None;
     recipe_calories := Some 220%Z;
     recipe_steps := Some [StepDict (Some "Cook everything well") (Some 10%Z)] |}.

(** The loop that fills [timed_steps]. *)
Definition project_steps (steps : list Step) : list TimedStep :=
  fold_left
    (fun timed_steps step =>
       match step with
       | StepDict text time =>
           timed_steps ++
             [ {| step_description := text; step_time := default 5%Z time |} ]
       | StepOther _ => timed_steps
       end)
    steps [].

(** [sum(s["time"] for s in timed_steps)]: the running total starts at 0. *)
Definition sum_times (timed_steps : list TimedStep) : Z :=
  fold_left (fun total s => (total + step_time s)%Z) timed_steps 0%Z.

(** The recipe that [generate_recipe] assembles: the selected one, or the
    synthesised default when [not recipe]. *)
Definition resolve_recipe (data : RequestData) : Recipe :=
  let ingredients :=
    normalize_ingredients (default [] (data_ingredients data)) in
  let selected_dish := data_selected_dish data in
  let recipe := select_recipe selected_dish ingredients in
  if recipe_is_falsy recipe then custom_dish ingredients
  else default (custom_dish ingredients) recipe.

Definition generate_recipe (data : RequestData) : RecipeResponse :=
  let recipe := resolve_recipe data in
  let timed_steps := project_steps (default [] (recipe_steps recipe)) in
  {| resp_name := recipe_name recipe;
     resp_ingredients := recipe_ingredients recipe;
     resp_calories := recipe_calories recipe;
     resp_difficulty := recipe_difficulty recipe;
     resp_steps := timed_steps;
     resp_total_time := sum_times timed_steps |}.
End Catalogue.

(** The score [len(recipe_set & user_set)] that [find_best_recipe] gives to
    a recipe. *)
Definition score_of (user_ingredients : list string) (recipe : Recipe) : nat :=
  size (recipe_set_of recipe ∩ (list_to_set user_ingredients : gset string)).

(** The loop of [find_best_recipe], started in any state. *)
Definition best_loop (user_ingredients : list string) (l : list Recipe)
    (st : option Recipe * nat) : option Recipe * nat :=
  fold_left (best_step (list_to_set user_ingredients)) l st.

(** ** Exceptions *)

Inductive exn : Type := ValueError | TypeError.

(** The outcome of code that may raise. *)
Inductive result (A : Type) : Type :=
  | Ok (a : A)
  | Raise (e : exn).
Arguments Ok {A} a.
Arguments Raise {A} e.

#[global] Instance result_ret : MRet result := fun A a => Ok a.
#[global] Instance result_bind : MBind result := fun A B k r =>
  match r with
  | Ok a => k a
  | Raise e => Raise e
  end.

(** A [for] loop whose body may raise: the first exception ends the loop. *)
Fixpoint for_each {S A : Type} (body : S -> A -> result S) (l : list A) (s : S)
    : result S :=
  match l with
  | [] => Ok s
  | a :: l' => s' ← body s a; for_each body l' s'
  end.

(** ** The built-ins used by the analytics route *)

Definition is_digit (c : ascii) : bool :=
  let n := N_of_ascii c in ((48 <=? n) && (n <=? 57))%N.

Definition digit_value (c : ascii) : Z := Z.of_N (N_of_ascii c) - 48.

(** The digits of an [int] literal: single underscores may separate digits.
    Returns the value and the number of digits read. *)
Fixpoint int_digits (s : string) (acc : Z) (count : nat) (after_digit : bool)
    : option (Z * nat) :=
  match s with
  | EmptyString => if after_digit then Some (acc, count) else None
  | String c s' =>
      if is_digit c then
        int_digits s' (10 * acc + digit_value c)%Z (S count) true
      else if Ascii.eqb c "_" then
        if after_digit then int_digits s' acc count false else None
      else None
  end.

(** The characters that [int] skips around a literal in ASCII text: tab,
    line feed, vertical tab, form feed, carriage return and the space.  The
    separators [0x1c]..[0x1f], which [str.strip] removes, are not among
    them. *)
Definition is_int_space (c : ascii) : bool :=
  let n := N_of_ascii c in
  (((9 <=? n) && (n <=? 13)) || (n =? 32))%N.

Fixpoint int_lstrip (s : string) : string :=
  match s with
  | EmptyString => EmptyString
  | String c s' => if is_int_space c then int_lstrip s' else s
  end.

Fixpoint int_rstrip (s : string) : string :=
  match s with
  | EmptyString => EmptyString
  | String c s' =>
      match int_rstrip s' with
      | EmptyString =>
          if is_int_space c then EmptyString else String c EmptyString
      | t => String c t
      end
  end.

(** [int(s)] for a string: surrounding whitespace, one optional sign, decimal
    digits.  [None] stands for [ValueError], which is also what an
    interpreter with the default digit limit raises above 4300 digits. *)
Definition int_of_str (s : string) : option Z :=
  let parse (sign : Z) (digits : string) :=
    match int_digits digits 0%Z 0 false with
    | Some (v, count) => if count <=? 4300 then Some (sign * v)%Z else None
    | None => None
    end in
  match int_rstrip (int_lstrip s) with
  | String "+" digits => parse 1%Z digits
  | String "-" digits => parse (-1)%Z digits
  | digits => parse 1%Z digits
  end.

(** [\s+] of the compiled format: at least one whitespace character. *)
Definition skip_spaces (s : string) : option string :=
  match s with
  | String c s' => if is_space c then Some (lstrip s') else None
  | EmptyString => None
  end.

(** At most two digits whose value lies in [lo..hi], else one digit in
    [lo1..9], as in the alternations [3[0-1]|[1-2]\d|0[1-9]|[1-9]] of [%d],
    [1[0-2]|0[1-9]|[1-9]] of [%I] and [[0-5]\d|\d] of [%M]. *)
Definition two_digits (lo hi lo1 : Z) (s : string) : option (Z * string) :=
  let one :=
    match s with
    | String c s' =>
        if is_digit c && (lo1 <=? digit_value c)%Z
        then Some (digit_value c, s') else None
    | EmptyString => None
    end in
  match s with
  | String c1 (String c2 s') =>
      let v := (10 * digit_value c1 + digit_value c2)%Z in
      if is_digit c1 && is_digit c2 && (lo <=? v)%Z && (v <=? hi)%Z
      then Some (v, s') else one
  | _ => one
  end.

(** [%d]: the alternation of [two_digits], or a space and one digit
    [1..9]. *)
Definition parse_day (s : string) : option (Z * string) :=
  match two_digits 1 31 1 s with
  | Some r => Some r
  | None =>
      match s with
      | String " " (String c s') =>
          if is_digit c && (1 <=? digit_value c)%Z
          then Some (digit_value c, s') else None
      | _ => None
      end
  end.

Definition month_abbr : list (string * Z) :=
  [ ("jan", 1); ("feb", 2); ("mar", 3); ("apr", 4); ("may", 5); ("jun", 6);
    ("jul", 7); ("aug", 8); ("sep", 9); ("oct", 10); ("nov", 11);
    ("dec", 12) ]%Z.

(** [%b] in the C locale, matched without regard to case. *)
Definition parse_month (s : string) : option (Z * string) :=
  match s with
  | String c1 (String c2 (String c3 s')) =>
      let abbr := lower (String c1 (String c2 (String c3 EmptyString))) in
      match List.find (fun '(name, _) => String.eqb name abbr) month_abbr with
      | Some (_, m) => Some (m, s')
      | None => None
      end
  | _ => None
  end.

(** [%Y]: exactly four digits. *)
Definition parse_year (s : string) : option (Z * string) :=
  match s with
  | String c1 (String c2 (String c3 (String c4 s'))) =>
      if is_digit c1 && is_digit c2 && is_digit c3 && is_digit c4 then
        Some (1000 * digit_value c1 + 100 * digit_value c2
              + 10 * digit_value c3 + digit_value c4, s')%Z
      else None
  | _ => None
  end.

Definition expect_char (c : ascii) (s : string) : option string :=
  match s with
  | String c' s' => if Ascii.eqb c c' then Some s' else None
  | EmptyString => None
  end.

(** [%p] in the C locale: [AM] or [PM] in either case; [true] is [PM]. *)
Definition parse_am_pm (s : string) : option (bool * string) :=
  match s with
  | String c1 (String c2 s') =>
      let p := lower (String c1 (String c2 EmptyString)) in
      if String.eqb p "am" then Some (false, s')
      else if String.eqb p "pm" then Some (true, s')
      else None
  | _ => None
  end.

Definition is_leap (year : Z) : bool :=
  ((year mod 4 =? 0) && (negb (year mod 100 =? 0) || (year mod 400 =? 0)))%Z.

Definition days_in_month (year month : Z) : Z :=
  (if month =? 2 then (if is_leap year then 29 else 28)
   else if (month =? 4) || (month =? 6) || (month =? 9) || (month =? 11)
        then 30 else 31)%Z.

Fixpoint days_before_month_upto (year : Z) (months : nat) : Z :=
  match months with
  | O => 0
  | S k => days_before_month_upto year k + days_in_month year (Z.of_nat (S k))
  end%Z.

(** [date.toordinal()]: 1 January of year 1 is day 1. *)
Definition toordinal (year month day : Z) : Z :=
  (let y := year - 1 in
   y * 365 + y / 4 - y / 100 + y / 400
   + days_before_month_upto year (Z.to_nat (month - 1)) + day)%Z.

(** [datetime.strptime(s, "%d %b %Y, %I:%M %p").weekday()], Monday being 0.
    [None] stands for the [ValueError] of a string that does not match the
    format, leaves unconverted data, or names a day that does not exist. *)
Definition strptime_weekday (s : string) : option nat :=
  '(day, s) ← parse_day s;
  s ← skip_spaces s;
  '(month, s) ← parse_month s;
  s ← skip_spaces s;
  '(year, s) ← parse_year s;
  s ← expect_char "," s;
  s ← skip_spaces s;
  '(_, s) ← two_digits 1 12 1 s;
  s ← expect_char ":" s;
  '(_, s) ← two_digits 0 59 0 s;
  s ← skip_spaces s;
  '(_, s) ← parse_am_pm s;
  match s with
  | EmptyString =>
      if ((1 <=? year) && (day <=? days_in_month year month))%Z
      then Some (Z.to_nat ((toordinal year month day + 6) mod 7))
      else None
  | _ => None
  end.

(** ** Cooking memories and the session *)

#[local] Set Warnings "-register-all".

(** A value stored under a key of a memory: [save_memory] stores form text,
    [None] for a form field that was not sent, and the decoded JSON of the
    [ingredients] field, which may be any JSON value.  A float stands for a
    finite number and is given by its exact value; a dictionary lists its
    items in insertion order. *)
Inductive JValue : Type :=
  | JNull
  | JBool (b : bool)
  | JInt (z : Z)
  | JFloat (q : Q)
  | JStr (s : string)
  | JList (l : list JValue)
  | JDict (d : list (string * JValue)).

(** A memory dictionary; a field is [None] when the key is absent. *)
Record Memory : Type := {
  mem_name : option JValue;
  mem_calories : option JValue;
  mem_ingredients : option JValue;
  mem_image : option JValue;
  mem_note : option JValue;
  mem_cooked_at : option JValue
}.

(** The keys of the Flask session that the routes read. *)
Record Session : Type := {
  session_user_id : option nat;
  session_memories : option (list Memory)
}.

(** Truthiness of a value. *)
Definition truthy (v : JValue) : bool :=
  match v with
  | JNull => false
  | JBool b => b
  | JInt z => negb (z =? 0)%Z
  | JFloat q => negb (Qeq_bool q 0)
  | JStr s => negb (String.eqb s "")
  | JList l => match l with [] => false | _ :: _ => true end
  | JDict d => match d with [] => false | _ :: _ => true end
  end.

(** [int(v)]: the number itself (1 and 0 for the booleans, a float cut
    towards zero), the parsed text, [ValueError] for text that is no integer
    literal and [TypeError] for [None], a list and a dictionary. *)
Definition py_int (v : JValue) : result Z :=
  match v with
  | JBool b => Ok (if b then 1 else 0)%Z
  | JInt z => Ok z
  | JFloat q => Ok (Z.quot (Qnum q) (Z.pos (Qden q)))
  | JStr s => match int_of_str s with Some z => Ok z | None => Raise ValueError end
  | JNull | JList _ | JDict _ => Raise TypeError
  end.

(** The [try: cal = int(mem.get("calories", 0)) except: cal = 0] block. *)
Definition coerce_calories (mem : Memory) : Z :=
  match py_int (default (JInt 0) (mem_calories mem)) with
  | Ok cal => cal
  | Raise _ => 0%Z
  end.

(** [datetime.strptime(v, fmt).weekday()] on a value: only text can be
    parsed. *)
Definition cooked_weekday (v : JValue) : result nat :=
  match v with
  | JStr s =>
      match strptime_weekday s with
      | Some weekday => Ok weekday
      | None => Raise ValueError
      end
  | _ => Raise TypeError
  end.

(** The keys of a dictionary in insertion order; a key occurs once. *)
Fixpoint dict_keys (d : list (string * JValue)) : list string :=
  match d with
  | [] => []
  | (k, _) :: d' =>
      k :: List.filter (fun k' => negb (String.eqb k k')) (dict_keys d')
  end.

(** [for ing in v]: a list yields its entries, text its characters, a
    dictionary its keys, and [None] or a number cannot be iterated. *)
Definition iterate (v : JValue) : result (list JValue) :=
  match v with
  | JList l => Ok l
  | JStr s =>
      Ok ((fun c => JStr (String c EmptyString)) <$> list_ascii_of_string s)
  | JDict d => Ok (JStr <$> dict_keys d)
  | JNull | JBool _ | JInt _ | JFloat _ => Raise TypeError
  end.

(** ** [collections.Counter] *)

(** A value that can be a dictionary key: lists and dictionaries cannot. *)
Definition hashable (v : JValue) : bool :=
  match v with
  | JList _ | JDict _ => false
  | _ => true
  end.

(** The number a value stands for in a comparison: [True] is 1 and [False]
    is 0. *)
Definition numeric (v : JValue) : option Q :=
  match v with
  | JBool b => Some (if b then 1 else 0)%Q
  | JInt z => Some (inject_Z z)
  | JFloat q => Some q
  | _ => None
  end.

(** Two keys name the same entry of a dictionary when they are equal:
    numbers by value across booleans, integers and floats, text by its
    characters, [None] only with [None]. *)
Definition same_key (a b : JValue) : bool :=
  match numeric a, numeric b with
  | Some x, Some y => Qeq_bool x y
  | _, _ =>
      match a, b with
      | JNull, JNull => true
      | JStr s, JStr t => String.eqb s t
      | _, _ => false
      end
  end.

(** A [Counter] keeps its keys in insertion order, each as the value that
    was inserted first. *)
Definition Counter : Type := list (JValue * nat).

(** [counter[key] += 1] for a key that can be hashed. *)
Fixpoint counter_incr (counter : Counter) (key : JValue) : Counter :=
  match counter with
  | [] => [(key, 1)]
  | (k, n) :: rest =>
      if same_key k key then (k, S n) :: rest
      else (k, n) :: counter_incr rest key
  end.

(** The body of [for ing in ingredients]: [ingredient_counter[ing] += 1]
    raises [TypeError] for a list or a dictionary. *)
Definition count_entry (counter : Counter) (ing : JValue) : result Counter :=
  if hashable ing then Ok (counter_incr counter ing) else Raise TypeError.

(** [counter.most_common(1)] is [max(items, key=count)] wrapped in a list:
    the first item with the largest count, or nothing. *)
Definition most_common_1 (counter : Counter) : list (JValue * nat) :=
  match counter with
  | [] => []
  | first :: rest =>
      [ fold_left (fun best item => if snd best <? snd item then item else best)
                  rest first ]
  end.

(** ** [/analytics-data] *)

Record AnalyticsSummary : Type := {
  totalCalories : Z;
  totalRecipes : nat;
  topIngredient : JValue;
  weeklyCalories : list Z;
  ingredientLabels : list JValue;
  ingredientCounts : list nat
}.

(** The variables the loop of [analytics_data] updates. *)
Record AnalyticsState : Type := {
  total_calories : Z;
  ingredient_counter : Counter;
  weekly_calories : list Z
}.

(** The body of [for mem in memories]. *)
Definition analytics_step (st : AnalyticsState) (mem : Memory)
    : result AnalyticsState :=
  let cal := coerce_calories mem in
  let total := (total_calories st + cal)%Z in
  let cooked_time := default JNull (mem_cooked_at mem) in
  weekly ←
    (if truthy cooked_time then
       weekday ← cooked_weekday cooked_time;
       Ok (alter (fun w => (w + cal)%Z) weekday (weekly_calories st))
     else Ok (weekly_calories st));
  ingredients ← iterate (default (JList []) (mem_ingredients mem));
  counter ← for_each count_entry ingredients (ingredient_counter st);
  Ok {| total_calories := total;
        ingredient_counter := counter;
        weekly_calories := weekly |}.

Definition analytics_data (session : Session) : result AnalyticsSummary :=
  match session_memories session with
  | None =>
      Ok {| totalCalories := 0;
            totalRecipes := 0;
            topIngredient := JStr "-";
            weeklyCalories := replicate 7 0%Z;
            ingredientLabels := [];
            ingredientCounts := [] |}
  | Some memories =>
      st ← for_each analytics_step memories
             {| total_calories := 0;
                ingredient_counter := [];
                weekly_calories := replicate 7 0%Z |};
      let top_ingredient := most_common_1 (ingredient_counter st) in
      let top_ingredient :=
        match top_ingredient with
        | (ing, _) :: _ => ing
        | [] => JStr "-"
        end in
      Ok {| totalCalories := total_calories st;
            totalRecipes := length memories;
            topIngredient := top_ingredient;
            weeklyCalories := weekly_calories st;
            ingredientLabels := fst <$> ingredient_counter st;
            ingredientCounts := snd <$> ingredient_counter st |}
  end.

(** ** [/delete-memory] *)

Inductive DeleteResponse : Type :=
  | Deleted            (* [{"message": "Deleted"}] *)
  | Unauthorized.      (* [{"error": "Unauthorized"}], status 401 *)

(** [delete_memory] on the session and the integer [index] of the request
    body; returns the session after the request and the response.
    [memories.pop(i)] with [0 <= i < len(memories)] removes position [i]. *)
Definition delete_memory (session : Session) (index : Z)
    : Session * DeleteResponse :=
  match session_user_id session with
  | None => (session, Unauthorized)
  | Some _ =>
      let memories := default [] (session_memories session) in
      let memories :=
        if ((0 <=? index) && (index <? Z.of_nat (length memories)))%Z
        then delete (Z.to_nat (Z.of_nat (length memories) - 1 - index)) memories
        else memories in
      ({| session_user_id := session_user_id session;
          session_memories := Some memories |}, Deleted)
  end.

(** ** The ranked mode as the specification words it *)

(** The inclusion rule: the normalised ingredient set is not empty, the
    match ratio [|recipeSet ∩ userSet| / |recipeSet|] is at least 0.6, and at
    most one ingredient is missing. *)
Definition inclusion_rule (user_set : gset string) (recipe : Recipe) : Prop :=
  let recipe_set := recipe_set_of recipe in
  size recipe_set <> 0
  /\ (6 # 10 <= inject_Z (Z.of_nat (size (recipe_set ∩ user_set)))
                / inject_Z (Z.of_nat (size recipe_set)))%Q
  /\ size (recipe_set ∖ user_set) <= 1.

(** The test of [match_step], as a boolean. *)
Definition qualifies (user_set : gset string) (recipe : Recipe) : bool :=
  let recipe_set := recipe_set_of recipe in
  negb (size recipe_set =? 0)
  && Qle_bool (6 # 10)
       (Z.of_nat (size (recipe_set ∩ user_set)) # Pos.of_nat (size recipe_set))
  && (size (recipe_set ∖ user_set) <=? 1).

(** Ascending order of the key tuples, component by component. *)
Definition key_le (a b : nat * nat * Z) : Prop :=
  let '(m1, d1, t1) := a in
  let '(m2, d2, t2) := b in
  m1 < m2 \/ (m1 = m2 /\ (d1 < d2 \/ (d1 = d2 /\ (t1 <= t2)%Z))).

(** The candidates in catalogue order, before they are sorted. *)
Definition matches_in_catalogue_order (RECIPE_DB : list Recipe)
    (user_set : gset string) : list Match :=
  fold_left (match_step user_set) RECIPE_DB [].

(** ** The aggregation as the specification words it *)

(** [mem.get("cooked_at")]. *)
Definition cooked_at_value (mem : Memory) : JValue :=
  default JNull (mem_cooked_at mem).

(** The timestamp is absent: the key is missing or its value is falsy. *)
Definition timestamp_absent (mem : Memory) : Prop :=
  truthy (cooked_at_value mem) = false.

(** The timestamp is text that parses under the fixed format. *)
Definition timestamp_parses (mem : Memory) : Prop :=
  exists s weekday,
    cooked_at_value mem = JStr s /\ s <> "" /\ strptime_weekday s = Some weekday.

(** The timestamp is text that does not parse under the fixed format. *)
Definition timestamp_unparsable (mem : Memory) : Prop :=
  exists s,
    cooked_at_value mem = JStr s /\ s <> "" /\ strptime_weekday s = None.

(** The [ingredients] of the memory can be counted: the value can be
    iterated and each entry it yields can be a dictionary key. *)
Definition ingredients_countable (mem : Memory) : Prop :=
  exists l,
    iterate (default (JList []) (mem_ingredients mem)) = Ok l
    /\ Forall (fun ing => hashable ing = true) l.

(** The weekday bucket of a memory, if its timestamp names one. *)
Definition bucket_of (mem : Memory) : option nat :=
  match cooked_at_value mem with
  | JStr s => strptime_weekday s
  | _ => None
  end.

(** The sum of the coerced calories of all memories. *)
Definition calories_total (memories : list Memory) : Z :=
  foldr (fun mem total => (coerce_calories mem + total)%Z) 0%Z memories.

(** The sum of the coerced calories of the memories of one weekday. *)
Definition bucket_total (weekday : nat) (memories : list Memory) : Z :=
  foldr (fun mem total =>
           if decide (bucket_of mem = Some weekday)
           then (coerce_calories mem + total)%Z else total)
        0%Z memories.

(** ** Sample data for the concrete instances below *)

(** A catalogue entry with a name, ingredients, and the other keys absent. *)
Definition sample_recipe (name : string) (ingredients : list string) : Recipe :=
  {| recipe_name := Some name;
     recipe_ingredients := Some ingredients;
     recipe_preview := None;
     recipe_difficulty := None;
     recipe_time := None;
     recipe_calories := None;
     recipe_steps := None |}.

Definition salted_rice : Recipe := sample_recipe "Salted Rice" ["Rice"; "Salt"].
Definition pepper_soup : Recipe := sample_recipe "Pepper Soup" ["Pepper"; "Water"].
Definition rice_pudding : Recipe := sample_recipe "Rice Pudding" ["rice"; "milk"].

(** A memory as [save_memory] stores it. *)
Definition sample_memory (name calories cooked_at : string)
    (ingredients : list string) : Memory :=
  {| mem_name := Some (JStr name);
     mem_calories := Some (JStr calories);
     mem_ingredients := Some (JList (JStr <$> ingredients));
     mem_image := Some (JStr "/static/uploads/20261103173100_dish.png");
     mem_note := Some JNull;
     mem_cooked_at := Some (JStr cooked_at) |}.

Definition m0 : Memory :=
  sample_memory "Dal" "180" "02 Nov 2026, 08:15 PM" ["lentil"; "onion"].
Definition m1 : Memory :=
  sample_memory "Pulao" "abc" "03 Nov 2026, 01:05 PM" ["rice"; "onion"].
Definition m2 : Memory :=
  sample_memory "Raita" "90" "03 Nov 2026, 01:20 PM" ["curd"].

Definition session_with (memories : list Memory) : Session :=
  {| session_user_id := Some 7; session_memories := Some memories |}.

(** A catalogue entry with difficulty and time as well. *)
Definition ranked_recipe (name : string) (ingredients : list string)
    (difficulty : string) (time : Z) : Recipe :=
  {| recipe_name := Some name;
     recipe_ingredients := Some ingredients;
     recipe_preview := None;
     recipe_difficulty := Some difficulty;
     recipe_time := Some time;
     recipe_calories := None;
     recipe_steps := None |}.

Definition dish_A : Recipe := ranked_recipe "A" ["rice"; "salt"] "Hard" 30.
Definition dish_B : Recipe := ranked_recipe "B" ["rice"] "Easy" 10.
Definition dish_C : Recipe := ranked_recipe "C" ["rice"; "salt"; "milk"] "Easy" 5.
Definition dish_D : Recipe := ranked_recipe "D" ["salt"] "Hard" 30.
Definition dish_E : Recipe := ranked_recipe "E" ["rice"; "milk"; "sugar"] "Easy" 5.
Definition dish_F : Recipe :=
  ranked_recipe "F" ["rice"; "salt"; "milk"; "sugar"; "ghee"] "Easy" 5.

(** Memories whose timestamp is missing and whose timestamp is no date. *)
Definition undated : Memory :=
  {| mem_name := Some (JStr "Soup");
     mem_calories := Some (JStr "120");
     mem_ingredients := Some (JList [JStr "onion"]);
     mem_image := None;
     mem_note := None;
     mem_cooked_at := None |}.
Definition misdated : Memory :=
  sample_memory "Stew" "300" "yesterday evening" ["onion"].

(** A memory whose [ingredients] field was sent as the JSON text
    [[["a"]]]: a list that holds a list. *)
Definition nested : Memory :=
  {| mem_name := Some (JStr "Stew");
     mem_calories := Some (JStr "300");
     mem_ingredients := Some (JList [JList [JStr "a"]]);
     mem_image := Some (JStr "/static/uploads/20261103173100_dish.png");
     mem_note := Some JNull;
     mem_cooked_at := Some (JStr "03 Nov 2026, 01:20 PM") |}.

(** ** [datetime.now()] and [strftime] *)

(** The fields of a [datetime] that the two formats of [save_memory] read. *)
Record DateTime : Type := {
  dt_year : Z;
  dt_month : Z;
  dt_day : Z;
  dt_hour : Z;
  dt_minute : Z;
  dt_second : Z
}.

(** A value that [datetime.now()] can return and that [strftime] prints with
    a four-digit year. *)
Definition valid_datetime (now : DateTime) : Prop :=
  (1000 <= dt_year now <= 9999
   /\ 1 <= dt_month now <= 12
   /\ 1 <= dt_day now <= days_in_month (dt_year now) (dt_month now)
   /\ 0 <= dt_hour now <= 23
   /\ 0 <= dt_minute now <= 59
   /\ 0 <= dt_second now <= 59)%Z.

(** [now.weekday()]. *)
Definition weekday (now : DateTime) : nat :=
  Z.to_nat ((toordinal (dt_year now) (dt_month now) (dt_day now) + 6) mod 7).

Definition digit_char (k : Z) : ascii := ascii_of_N (Z.to_N (48 + k)).

(** A number below 100 printed with two digits, as [%d], [%m], [%H], [%I],
    [%M] and [%S] do. *)
Definition fmt2 (n : Z) : string :=
  String (digit_char (n / 10)) (String (digit_char (n mod 10)) EmptyString).

(** A year printed with four digits, as [%Y] does from year 1000 on. *)
Definition fmt4 (n : Z) : string :=
  String (digit_char (n / 1000))
    (String (digit_char (n / 100 mod 10))
       (String (digit_char (n / 10 mod 10))
          (String (digit_char (n mod 10)) EmptyString))).

(** [%b] in the C locale. *)
Definition month_name (month : Z) : string :=
  nth (Z.to_nat (month - 1))
      ["Jan"; "Feb"; "Mar"; "Apr"; "May"; "Jun";
       "Jul"; "Aug"; "Sep"; "Oct"; "Nov"; "Dec"] "".

(** [%I]: the hour on the 12-hour clock. *)
Definition hour12 (hour : Z) : Z :=
  (if hour mod 12 =? 0 then 12 else hour mod 12)%Z.

(** [%p] in the C locale. *)
Definition am_pm (hour : Z) : string := if (hour <? 12)%Z then "AM" else "PM".

(** [now.strftime("%Y%m%d%H%M%S")]. *)
Definition strftime_stamp (now : DateTime) : string :=
  String.append (fmt4 (dt_year now))
    (String.append (fmt2 (dt_month now))
       (String.append (fmt2 (dt_day now))
          (String.append (fmt2 (dt_hour now))
             (String.append (fmt2 (dt_minute now)) (fmt2 (dt_second now)))))).

(** [now.strftime("%d %b %Y, %I:%M %p")]. *)
Definition strftime_cooked_at (now : DateTime) : string :=
  String.append (fmt2 (dt_day now))
    (String " "
       (String.append (month_name (dt_month now))
          (String " "
             (String.append (fmt4 (dt_year now))
                (String "," (String " "
                   (String.append (fmt2 (hour12 (dt_hour now)))
                      (String ":"
                         (String.append (fmt2 (dt_minute now))
                            (String " " (am_pm (dt_hour now)))))))))))).

(** ** [/save-memory], [/get-memories] and [/logout] *)

(** The text fields of the multipart form; a field is [None] when it was
    not sent, which is what [request.form.get] reports. *)
Record MemoryForm : Type := {
  form_name : option string;
  form_calories : option string;
  form_ingredients : option string;
  form_note : option string
}.

Inductive SaveResponse : Type :=
  | Saved               (* [{"message": "Saved"}] *)
  | SaveUnauthorized    (* [{"error": "Unauthorized"}], status 401 *)
  | ImageRequired.      (* [{"error": "Image is required"}], status 400 *)

(** What a request to [/save-memory] leaves behind: the session, the
    response, and the path of the file written by [image.save], if any. *)
Record SaveOutcome : Type := {
  save_session : Session;
  save_response : SaveResponse;
  save_file : option string
}.

(** A form text as it is stored in the memory. *)
Definition form_value (field : option string) : JValue :=
  match field with
  | Some s => JStr s
  | None => JNull
  end.

Section SaveMemory.
(** [json.loads] on the text of the [ingredients] field, for texts that
    decode to [null], an integer, a string or a list of strings, and
    [Raise] for the [JSONDecodeError] of a text that is no JSON. *)
Variable json_loads : string -> result JValue.
(** [werkzeug.utils.secure_filename]. *)
Variable secure_filename : string -> string.

(** The value kept for [ingredients]: the decoded JSON when the field holds
    text, else the field as it is ([None] or the empty text). *)
Definition stored_ingredients (form : MemoryForm) : result JValue :=
  let ingredients := form_value (form_ingredients form) in
  if truthy ingredients
  then json_loads (default "" (form_ingredients form))
  else Ok ingredients.

(** [filepath], the place where the image is written. *)
Definition upload_path (image_filename : string) (now_stamp : DateTime)
    : string :=
  let timestamp := strftime_stamp now_stamp in
  let filename :=
    String.append timestamp (String "_" (secure_filename image_filename)) in
  String.append "static/uploads/" filename.

(** The dictionary appended to [memories]; [image_url] is [filepath] after a
    slash. *)
Definition new_memory (form : MemoryForm) (ingredients : JValue)
    (image_filename : string) (now_stamp now_cooked : DateTime) : Memory :=
  let image_url := String "/" (upload_path image_filename now_stamp) in
  let cooked_time := strftime_cooked_at now_cooked in
  {| mem_name := Some (form_value (form_name form));
     mem_calories := Some (form_value (form_calories form));
     mem_ingredients := Some ingredients;
     mem_image := Some (JStr image_url);
     mem_note := Some (form_value (form_note form));
     mem_cooked_at := Some (JStr cooked_time) |}.

(** [save_memory] on the session, the form, the file name of the uploaded
    [image] ([None] when no file was sent) and the two readings of the clock,
    for the file name and for [cooked_at].  The steps are those of the
    source: the login check, the form fields with the decoding of
    [ingredients], the image check, the file, and the append. *)
Definition save_memory (session : Session) (form : MemoryForm)
    (image_filename : option string) (now_stamp now_cooked : DateTime)
    : result SaveOutcome :=
  match session_user_id session with
  | None =>
      Ok {| save_session := session;
            save_response := SaveUnauthorized;
            save_file := None |}
  | Some _ =>
      ingredients ← stored_ingredients form;
      match image_filename with
      | Some (String _ _ as image_filename) =>
          let memories := default [] (session_memories session) in
          let memories :=
            memories ++
              [new_memory form ingredients image_filename now_stamp now_cooked] in
          Ok {| save_session :=
                  {| session_user_id := session_user_id session;
                     session_memories := Some memories |};
                save_response := Saved;
                save_file := Some (upload_path image_filename now_stamp) |}
      | _ =>
          Ok {| save_session := session;
                save_response := ImageRequired;
                save_file := None |}
      end
  end.
End SaveMemory.

(** [get_memories]: the list that is sent back as JSON. *)
Definition get_memories (session : Session) : list Memory :=
  match session_user_id session with
  | None => []
  | Some _ => default [] (session_memories session)
  end.

(** [logout]: [session.clear()] drops every key. *)
Definition logout (session : Session) : Session :=
  {| session_user_id := None; session_memories := None |}.

(** ** Further notions for stating properties *)

(** The entries that the loop of [analytics_data] counts for a memory. *)
Definition ingredients_of (mem : Memory) : list JValue :=
  match iterate (default (JList []) (mem_ingredients mem)) with
  | Ok l => l
  | Raise _ => []
  end.

(** All counted entries of a memory list, in the order they are counted. *)
Definition all_ingredients (memories : list Memory) : list JValue :=
  concat (ingredients_of <$> memories).

(** The number of entries of a list that are the key [key]. *)
Definition occurrences (key : JValue) (l : list JValue) : nat :=
  length (List.filter (fun k => same_key k key) l).

(** The distinct keys of a list in the order of their first occurrence, each
    as the entry that occurs first. *)
Fixpoint first_seen (l : list JValue) : list JValue :=
  match l with
  | [] => []
  | x :: l' => x :: List.filter (fun y => negb (same_key x y)) (first_seen l')
  end.

(** The same two notions for text, where two keys are the same when they are
    the same text. *)
Definition text_occurrences (key : string) (l : list string) : nat :=
  length (filter (fun k => k = key) l).

Definition text_first_seen (l : list string) : list string :=
  reverse (remove_dups (reverse l)).

(** The JSON object that [analytics_data] builds from the state its loop
    ends in. *)
Definition summary_of (st : AnalyticsState) (recipes : nat) : AnalyticsSummary :=
  {| totalCalories := total_calories st;
     totalRecipes := recipes;
     topIngredient :=
       match most_common_1 (ingredient_counter st) with
       | (ing, _) :: _ => ing
       | [] => JStr "-"
       end;
     weeklyCalories := weekly_calories st;
     ingredientLabels := fst <$> ingredient_counter st;
     ingredientCounts := snd <$> ingredient_counter st |}.

(** The state in which the loop of [analytics_data] starts. *)
Definition initial_state : AnalyticsState :=
  {| total_calories := 0;
     ingredient_counter := [];
     weekly_calories := replicate 7 0%Z |}.

(** What [coerce_calories] makes of the [calories] text of a form. *)
Definition form_calories_value (form : MemoryForm) : Z :=
  match form_calories form with
  | Some text => default 0%Z (int_of_str text)
  | None => 0%Z
  end.

(** [json.loads] on the texts that the instances below send: an empty JSON
    list, [null], and text that is no JSON. *)
Definition json_loads_sample (text : string) : result JValue :=
  if String.eqb text "[]" then Ok (JList [])
  else if String.eqb text "null" then Ok JNull
  else Raise ValueError.

(** [secure_filename] on a name that is safe already. *)
Definition secure_filename_sample (filename : string) : string := filename.

Definition sample_form (calories ingredients : option string) : MemoryForm :=
  {| form_name := Some "Khichdi";
     form_calories := calories;
     form_ingredients := ingredients;
     form_note := None |}.

Definition sample_now : DateTime :=
  {| dt_year := 2026; dt_month := 11; dt_day := 3;
     dt_hour := 17; dt_minute := 31; dt_second := 9 |}.

(** The outcome of saving [sample_form (Some "250") (Some "[]")] with the
    image [dish.png] into a session that holds [m0]. *)
Definition sample_saved : SaveOutcome :=
  {| save_session :=
       session_with
         [ m0;
           new_memory secure_filename_sample
             (sample_form (Some "250") (Some "[]")) (JList [])
             "dish.png" sample_now sample_now ];
     save_response := Saved;
     save_file := Some "static/uploads/20261103173109_dish.png" |}.


(** The sum of a list of integers. *)
Definition sum_Z (l : list Z) : Z := foldr Z.add 0%Z l.

(** The sum of the coerced calories of the memories that carry a
    timestamp. *)
Definition dated_calories (memories : list Memory) : Z :=
  foldr (fun mem total =>
           if truthy (cooked_at_value mem)
           then (coerce_calories mem + total)%Z else total)
        0%Z memories.

(** The count that a [Counter] holds for a key, 0 for a key it lacks. *)
Definition counter_get (counter : Counter) (key : JValue) : nat :=
  default 0 (snd <$> List.find (fun item => same_key (fst item) key) counter).

(** No key of [keys] is the key [key]. *)
Definition fresh_key (keys : list JValue) (key : JValue) : bool :=
  forallb (fun k => negb (same_key k key)) keys.

(** No two keys of a list are the same key, and each is a key of itself. *)
Fixpoint distinct_keys (keys : list JValue) : Prop :=
  match keys with
  | [] => True
  | k :: keys' =>
      same_key k k = true
      /\ Forall (fun k' => same_key k k' = false) keys'
      /\ distinct_keys keys'
  end.

(** * Properties *)

(** ** Strings *)

Lemma lower_char_idemp c : lower_char (lower_char c) = lower_char c.
Proof. by destruct c as [[] [] [] [] [] [] [] []]. Qed.

Lemma is_space_lower_char c : is_space (lower_char c) = is_space c.
Proof. by destruct c as [[] [] [] [] [] [] [] []]. Qed.

Lemma lower_idemp s : lower (lower s) = lower s.
Proof. induction s as [|c s IH]; simpl; [done|]. by rewrite lower_char_idemp, IH. Qed.

Lemma lower_lstrip s : lower (lstrip s) = lstrip (lower s).
Proof.
  induction s as [|c s IH]; simpl; [done|].
  rewrite is_space_lower_char. by destruct (is_space c).
Qed.

Lemma lower_rstrip s : lower (rstrip s) = rstrip (lower s).
Proof.
  induction s as [|c s IH]; simpl; [done|].
  rewrite <- IH, is_space_lower_char.
  destruct (rstrip s); simpl; [by destruct (is_space c)|done].
Qed.

Lemma lower_strip s : lower (strip s) = strip (lower s).
Proof. unfold strip. by rewrite lower_rstrip, lower_lstrip. Qed.

Lemma rstrip_idemp s : rstrip (rstrip s) = rstrip s.
Proof.
  induction s as [|c s IH]; simpl; [done|].
  destruct (rstrip s) as [|c' t] eqn:E.
  - destruct (is_space c) eqn:Ec; simpl; [done|]. by rewrite Ec.
  - change (rstrip (String c (String c' t))) with
      (match rstrip (String c' t) with
       | EmptyString => if is_space c then EmptyString else String c EmptyString
       | u => String c u
       end).
    by rewrite IH.
Qed.

Lemma lstrip_no_leading_space s : no_leading_space (lstrip s) = true.
Proof.
  induction s as [|c s IH]; simpl; [done|].
  destruct (is_space c) eqn:E; [done|]. simpl. by rewrite E.
Qed.

Lemma lstrip_fixed s : no_leading_space s = true -> lstrip s = s.
Proof. destruct s as [|c s]; simpl; [done|]. by destruct (is_space c). Qed.

Lemma rstrip_no_leading_space s :
  no_leading_space s = true -> no_leading_space (rstrip s) = true.
Proof.
  destruct s as [|c s]; simpl; [done|].
  destruct (rstrip s); simpl; [|done].
  destruct (is_space c) eqn:E; simpl; [done|]. by rewrite E.
Qed.

Lemma strip_idemp s : strip (strip s) = strip s.
Proof.
  unfold strip.
  rewrite (lstrip_fixed (rstrip (lstrip s))).
  - apply rstrip_idemp.
  - apply rstrip_no_leading_space, lstrip_no_leading_space.
Qed.

(** ** Normalisation *)

Lemma fold_left_snoc {A B : Type} (f : A -> B) (l : list A) (acc : list B) :
  fold_left (fun acc a => acc ++ [f a]) l acc = acc ++ (f <$> l).
Proof.
  revert acc. induction l as [|a l IH]; intros acc; simpl.
  - by rewrite app_nil_r.
  - rewrite IH. by rewrite <- app_assoc.
Qed.

Lemma normalize_ingredients_set (ingredients : list string) :
  list_to_set (normalize_ingredients ingredients)
  =@{gset string} list_to_set (normalize_one <$> ingredients).
Proof.
  unfold normalize_ingredients. rewrite fold_left_snoc. simpl.
  apply list_to_set_elements_L.
Qed.

Lemma elem_of_normalize_ingredients (ingredients : list string) (t : string) :
  t ∈ normalize_ingredients ingredients <->
  exists raw, raw ∈ ingredients /\ t = normalize_one raw.
Proof.
  unfold normalize_ingredients. rewrite fold_left_snoc. simpl.
  rewrite elem_of_elements, elem_of_list_to_set, list_elem_of_fmap.
  split; intros (raw & H1 & H2); exists raw; by split.
Qed.

(** Every value of the synonym table is a canonical token. *)
Lemma INGREDIENT_MAP_values (k v : string) :
  INGREDIENT_MAP !! k = Some v -> normalize_one v = v.
Proof.
  intros H. apply elem_of_list_to_map_2 in H.
  repeat (apply elem_of_cons in H as [H|H]; [by inversion H|]).
  by apply elem_of_nil in H.
Qed.

Lemma normalize_one_idemp (raw : string) :
  normalize_one (normalize_one raw) = normalize_one raw.
Proof.
  assert (Hraw : normalize_one raw
                 = default (strip (lower raw))
                     (INGREDIENT_MAP !! strip (lower raw))) by done.
  rewrite Hraw.
  destruct (INGREDIENT_MAP !! strip (lower raw)) as [v|] eqn:E; simpl.
  - by eapply INGREDIENT_MAP_values.
  - unfold normalize_one.
    rewrite <- lower_strip, strip_idemp, lower_strip, lower_idemp.
    by rewrite E.
Qed.

Lemma normalize_ingredients_idemp_set (x : list string) :
  list_to_set (normalize_ingredients (normalize_ingredients x))
  =@{gset string} list_to_set (normalize_ingredients x).
Proof.
  apply set_eq. intros t.
  rewrite !elem_of_list_to_set, !elem_of_normalize_ingredients.
  split.
  - intros (c & Hc & ->).
    apply elem_of_normalize_ingredients in Hc as (raw & Hraw & ->).
    exists raw. by rewrite normalize_one_idemp.
  - intros (raw & Hraw & ->).
    exists (normalize_one raw). rewrite normalize_one_idemp. split; [|done].
    apply elem_of_normalize_ingredients. by exists raw.
Qed.

(** C6.  Read as a set of canonical tokens, the result of
    [normalize_ingredients] is idempotent, does not depend on the order of
    the raw list, has no duplicates, and consists exactly of the raw entries
    lowercased, trimmed and sent through the synonym table (an entry without
    a mapping stays as it is); [["Onion"; "onion"; " Onion "]] normalises to
    the set holding only ["onion"]. *)
Theorem normalize_ingredients_laws :
  (forall x : list string,
     list_to_set (normalize_ingredients (normalize_ingredients x))
     =@{gset string} list_to_set (normalize_ingredients x))
  /\ (forall x y : list string,
        x ≡ₚ y ->
        list_to_set (normalize_ingredients x)
        =@{gset string} list_to_set (normalize_ingredients y))
  /\ (forall x : list string, NoDup (normalize_ingredients x))
  /\ (forall (x : list string) (t : string),
        t ∈ normalize_ingredients x <->
        exists raw, raw ∈ x /\
          t = default (strip (lower raw))
                (INGREDIENT_MAP !! strip (lower raw)))
  /\ list_to_set (normalize_ingredients ["Onion"; "onion"; " Onion "])
     =@{gset string} {["onion"]}.
Proof.
  split; [|split; [|split; [|split]]].
  - apply normalize_ingredients_idemp_set.
  - intros x y Hxy. rewrite !normalize_ingredients_set.
    apply set_eq. intros t. rewrite !elem_of_list_to_set.
    by rewrite Hxy.
  - intros x. unfold normalize_ingredients. apply NoDup_elements.
  - apply elem_of_normalize_ingredients.
  - by vm_compute.
Qed.

Lemma normalize_ingredients_laws_witness :
  list_to_set (normalize_ingredients ["Bell Pepper"; "Cilantro"])
  =@{gset string} list_to_set (normalize_ingredients ["Cilantro"; "Bell Pepper"]).
Proof.
  apply (proj1 (proj2 normalize_ingredients_laws)).
  apply perm_swap.
Defined.

(** ** Best single match *)

Lemma find_best_recipe_loop db u :
  find_best_recipe db u = fst (best_loop u db (None, 0)).
Proof. reflexivity. Qed.

Lemma best_loop_cons u r l best bs :
  best_loop u (r :: l) (best, bs)
  = best_loop u l (if bs <? score_of u r then (Some r, score_of u r)
                   else (best, bs)).
Proof. reflexivity. Qed.

Lemma best_loop_app u l1 l2 st :
  best_loop u (l1 ++ l2) st = best_loop u l2 (best_loop u l1 st).
Proof. apply fold_left_app. Qed.

(** Recipes that do not beat the current score leave the state alone. *)
Lemma best_loop_no_better u l best bs :
  Forall (fun r => score_of u r <= bs) l ->
  best_loop u l (best, bs) = (best, bs).
Proof.
  induction 1 as [|r l Hr _ IH]; [done|].
  rewrite best_loop_cons.
  destruct (Nat.ltb_spec bs (score_of u r)); [lia|done].
Qed.

(** Scores below [k] keep the running maximum below [k]. *)
Lemma best_loop_below u k l best bs :
  bs < k ->
  Forall (fun r => score_of u r < k) l ->
  snd (best_loop u l (best, bs)) < k.
Proof.
  intros Hbs Hl. revert best bs Hbs.
  induction Hl as [|r l Hr _ IH]; intros best bs Hbs; [done|].
  rewrite best_loop_cons.
  destruct (Nat.ltb_spec bs (score_of u r)); by apply IH.
Qed.

(** What the loop computes: either nothing beats the initial score, or the
    state is the first recipe with the largest score. *)
Lemma best_loop_spec u l best bs :
  (best_loop u l (best, bs) = (best, bs)
   /\ Forall (fun r => score_of u r <= bs) l)
  \/ (exists l1 r l2,
        l = l1 ++ r :: l2
        /\ best_loop u l (best, bs) = (Some r, score_of u r)
        /\ bs < score_of u r
        /\ Forall (fun r' => score_of u r' < score_of u r) l1
        /\ Forall (fun r' => score_of u r' <= score_of u r) l2).
Proof.
  revert best bs. induction l as [|a l IH]; intros best bs.
  - left. by split.
  - rewrite best_loop_cons.
    destruct (Nat.ltb_spec bs (score_of u a)) as [Hlt|Hge].
    + destruct (IH (Some a) (score_of u a))
        as [[Heq Hall]|(l1 & r & l2 & -> & Heq & Hr & H1 & H2)].
      * right. exists [], a, l. by repeat split.
      * right. exists (a :: l1), r, l2.
        repeat split; [done|lia| |done].
        constructor; [lia|done].
    + destruct (IH best bs)
        as [[Heq Hall]|(l1 & r & l2 & -> & Heq & Hr & H1 & H2)].
      * left. split; [done|]. by constructor.
      * right. exists (a :: l1), r, l2.
        repeat split; [done|done| |done].
        constructor; [lia|done].
Qed.

(** The first recipe with the largest score wins when that score is
    positive. *)
Lemma find_best_recipe_first_max db u l1 r l2 :
  db = l1 ++ r :: l2 ->
  0 < score_of u r ->
  Forall (fun r' => score_of u r' < score_of u r) l1 ->
  Forall (fun r' => score_of u r' <= score_of u r) l2 ->
  find_best_recipe db u = Some r.
Proof.
  intros -> Hpos H1 H2.
  rewrite find_best_recipe_loop, best_loop_app.
  pose proof (best_loop_below u (score_of u r) l1 None 0 Hpos H1) as Hbelow.
  destruct (best_loop u l1 (None, 0)) as [best bs]. simpl in Hbelow.
  rewrite best_loop_cons.
  destruct (Nat.ltb_spec bs (score_of u r)); [|lia].
  by rewrite best_loop_no_better.
Qed.

Lemma find_best_recipe_Some db u r :
  find_best_recipe db u = Some r ->
  exists l1 l2,
    db = l1 ++ r :: l2
    /\ 0 < score_of u r
    /\ Forall (fun r' => score_of u r' < score_of u r) l1
    /\ Forall (fun r' => score_of u r' <= score_of u r) l2.
Proof.
  rewrite find_best_recipe_loop.
  destruct (best_loop_spec u db None 0)
    as [[-> _]|(l1 & r' & l2 & -> & -> & Hr & H1 & H2)]; simpl; [done|].
  intros [= <-]. exists l1, l2. repeat split; [lia|done|done].
Qed.

Lemma find_best_recipe_None db u :
  Forall (fun r => score_of u r = 0) db -> find_best_recipe db u = None.
Proof.
  intros H. rewrite find_best_recipe_loop, best_loop_no_better; [done|].
  eapply Forall_impl; [exact H|]. simpl. lia.
Qed.

(** C2 (amended).  [find_best_recipe] returns [None] on an empty catalogue.
    A recipe whose score is 0 is never returned, not even when it comes first
    and nothing scores higher: whatever is returned has a positive score, and
    when every recipe scores 0 the result is [None]. *)
Theorem find_best_recipe_never_zero_score :
  (forall u : list string, find_best_recipe [] u = None)
  /\ (forall (db : list Recipe) (u : list string) (r : Recipe),
        find_best_recipe db u = Some r -> 0 < score_of u r)
  /\ (forall (db : list Recipe) (u : list string),
        Forall (fun r => score_of u r = 0) db -> find_best_recipe db u = None).
Proof.
  split; [|split].
  - done.
  - intros db u r H.
    by apply find_best_recipe_Some in H as (l1 & l2 & _ & Hpos & _).
  - apply find_best_recipe_None.
Qed.

Lemma find_best_recipe_never_zero_score_witness :
  0 < score_of ["rice"] salted_rice
  /\ find_best_recipe [pepper_soup] ["rice"] = None.
Proof.
  split.
  - apply (proj1 (proj2 find_best_recipe_never_zero_score)
             [pepper_soup; salted_rice] ["rice"] salted_rice).
    vm_compute. reflexivity.
  - apply (proj2 (proj2 find_best_recipe_never_zero_score)).
    repeat constructor.
Defined.

(** C2, as stated, fails: [pepper_soup] is the first recipe of the catalogue,
    scores 0 against [["rice"]], nothing scores higher, and yet it is not
    returned. *)
Lemma find_best_recipe_zero_score_counterexample :
  score_of ["rice"] pepper_soup = 0
  /\ find_best_recipe [pepper_soup] ["rice"] <> Some pepper_soup.
Proof. split; [by vm_compute|]. vm_compute. discriminate. Qed.

(** C7 (amended).  [find_best_recipe] returns a recipe exactly when it is
    the first recipe of the catalogue reaching the largest score and that
    score is positive: every earlier recipe scores strictly less, and later
    recipes with an equal (or smaller) score do not replace it. *)
Theorem find_best_recipe_first_of_ties
    (db : list Recipe) (u : list string) (r : Recipe) :
  find_best_recipe db u = Some r <->
  exists l1 l2,
    db = l1 ++ r :: l2
    /\ 0 < score_of u r
    /\ Forall (fun r' => score_of u r' < score_of u r) l1
    /\ Forall (fun r' => score_of u r' <= score_of u r) l2.
Proof.
  split.
  - apply find_best_recipe_Some.
  - intros (l1 & l2 & Hdb & Hpos & H1 & H2).
    by eapply find_best_recipe_first_max.
Qed.

Lemma find_best_recipe_first_of_ties_witness :
  find_best_recipe [pepper_soup; salted_rice; rice_pudding] ["rice"]
  = Some salted_rice.
Proof.
  apply (proj2 (find_best_recipe_first_of_ties
                  [pepper_soup; salted_rice; rice_pudding] ["rice"]
                  salted_rice)).
  exists [pepper_soup], [rice_pudding].
  split; [reflexivity|].
  split; [vm_compute; lia|].
  split; repeat constructor; vm_compute; lia.
Defined.

(** C7, as stated, fails when the largest score is 0: [pepper_soup] and
    [sample_recipe "Tea" ["tea"]] tie at the largest score, 0, and the first
    of them is not returned. *)
Lemma find_best_recipe_tie_counterexample :
  score_of ["rice"] pepper_soup = score_of ["rice"] (sample_recipe "Tea" ["tea"])
  /\ find_best_recipe [pepper_soup; sample_recipe "Tea" ["tea"]] ["rice"]
     <> Some pepper_soup.
Proof. split; [by vm_compute|]. vm_compute. discriminate. Qed.

(** ** Deleting a memory *)

Lemma delete_position {A : Type} (l : list A) (k : nat) :
  k < length l ->
  exists before x after,
    l = before ++ x :: after /\ length before = k
    /\ delete k l = before ++ after.
Proof.
  intros Hk. destruct (lookup_lt_is_Some_2 l k Hk) as [x Hx].
  exists (take k l), x, (drop (S k) l). split; [|split].
  - by rewrite take_drop_middle.
  - rewrite length_take. lia.
  - apply delete_take_drop.
Qed.

(** C3.  For a logged-in session whose memory list has length [n] and an
    integer [index]: when [0 <= index < n] the request removes exactly the
    memory stored at position [n - 1 - index] and keeps all others in their
    order (so [index = 0] removes the newest, last-stored memory); when
    [index] is negative or at least [n] the list is stored back unchanged and
    the request still answers [Deleted]. *)
Theorem delete_memory_most_recent_first
    (session : Session) (uid : nat) (index : Z) :
  session_user_id session = Some uid ->
  let memories := default [] (session_memories session) in
  let n := Z.of_nat (length memories) in
  ((0 <= index < n)%Z ->
     exists before m after,
       memories = before ++ m :: after
       /\ Z.of_nat (length before) = (n - 1 - index)%Z
       /\ delete_memory session index
          = ({| session_user_id := Some uid;
                session_memories := Some (before ++ after) |}, Deleted))
  /\ (~ (0 <= index < n)%Z ->
        delete_memory session index
        = ({| session_user_id := Some uid;
              session_memories := Some memories |}, Deleted))
  /\ (index = 0%Z ->
      forall older newest,
        memories = older ++ [newest] ->
        delete_memory session index
        = ({| session_user_id := Some uid;
              session_memories := Some older |}, Deleted)).
Proof.
  intros Huid memories n.
  assert (Hin : (0 <= index < n)%Z ->
     exists before m after,
       memories = before ++ m :: after
       /\ Z.of_nat (length before) = (n - 1 - index)%Z
       /\ delete_memory session index
          = ({| session_user_id := Some uid;
                session_memories := Some (before ++ after) |}, Deleted)).
  { intros Hrange. unfold delete_memory. rewrite Huid.
    fold memories. fold n.
    destruct (Z.leb_spec 0 index); [|lia].
    destruct (Z.ltb_spec index n); [|lia]. simpl.
    destruct (delete_position memories (Z.to_nat (n - 1 - index)))
      as (before & m & after & Hsplit & Hlen & Hdel); [subst n; lia|].
    exists before, m, after. split; [done|]. split; [lia|].
    by rewrite Hdel. }
  split; [done|]. split.
  - intros Hout. unfold delete_memory. rewrite Huid.
    fold memories. fold n.
    destruct (Z.leb_spec 0 index); simpl; [|done].
    destruct (Z.ltb_spec index n); [lia|done].
  - intros Hzero older newest Hsplit.
    destruct Hin as (before & m & after & Hsplit' & Hlen & ->).
    { subst n. rewrite Hsplit, length_app. simpl. lia. }
    assert (length before = length older) as Hsame.
    { subst n. rewrite Hsplit, length_app in Hlen. simpl in Hlen. lia. }
    rewrite Hsplit in Hsplit'.
    apply app_inj_1 in Hsplit' as [-> Hlast]; [|done].
    destruct after; [|done]. by rewrite app_nil_r.
Qed.

Lemma delete_memory_most_recent_first_witness :
  delete_memory (session_with [m0; m1; m2]) 0
  = (session_with [m0; m1], Deleted)
  /\ delete_memory (session_with [m0; m1; m2]) 5
     = (session_with [m0; m1; m2], Deleted)
  /\ exists before m after,
       [m0; m1; m2] = before ++ m :: after
       /\ Z.of_nat (length before) = (3 - 1 - 2)%Z
       /\ delete_memory (session_with [m0; m1; m2]) 2
          = (session_with (before ++ after), Deleted).
Proof.
  split; [|split].
  - apply (proj2 (proj2 (delete_memory_most_recent_first
                           (session_with [m0; m1; m2]) 7 0 eq_refl))
             eq_refl [m0; m1] m2 eq_refl).
  - apply (proj1 (proj2 (delete_memory_most_recent_first
                           (session_with [m0; m1; m2]) 7 5 eq_refl))).
    simpl. lia.
  - apply (proj1 (delete_memory_most_recent_first
                    (session_with [m0; m1; m2]) 7 2 eq_refl)).
    simpl. lia.
Defined.

(** ** Stable sorting *)

Section ListSortFacts.
Context {A K : Type} `{EqDecision K} (key : A -> K) (lt : K -> K -> bool).
Hypothesis lt_asym : forall a b, lt a b = true -> lt b a = false.
Hypothesis le_trans :
  forall a b c, lt b a = false -> lt c b = false -> lt c a = false.

Lemma sort_insert_perm (x : A) (l : list A) : sort_insert key lt x l ≡ₚ x :: l.
Proof.
  induction l as [|y l IH]; simpl; [done|].
  destruct (lt (key y) (key x)); [|done].
  rewrite IH. apply perm_swap.
Qed.

Lemma list_sort_perm (l : list A) : list_sort key lt l ≡ₚ l.
Proof.
  induction l as [|x l IH]; simpl; [done|].
  by rewrite sort_insert_perm, IH.
Qed.

Lemma sort_insert_sorted (x : A) (l : list A) :
  StronglySorted (sorted_le key lt) l -> StronglySorted (sorted_le key lt) (sort_insert key lt x l).
Proof.
  induction 1 as [|y l Hsorted IH Hall]; simpl.
  - repeat constructor.
  - destruct (lt (key y) (key x)) eqn:E.
    + constructor; [done|].
      rewrite sort_insert_perm. constructor; [|done].
      by apply lt_asym.
    + constructor; [by constructor|].
      constructor; [done|].
      eapply Forall_impl; [exact Hall|].
      intros z Hz. unfold sorted_le in *. by eapply le_trans.
Qed.

Lemma list_sort_sorted (l : list A) : StronglySorted (sorted_le key lt) (list_sort key lt l).
Proof.
  induction l as [|x l IH]; simpl; [constructor|].
  by apply sort_insert_sorted.
Qed.

(** Insertion does not move [x] past an element with the same key. *)
Lemma sort_insert_filter (k : K) (x : A) (l : list A) :
  filter (fun y => key y = k) (sort_insert key lt x l)
  = filter (fun y => key y = k) (x :: l).
Proof.
  induction l as [|y l IH]; simpl; [done|].
  destruct (lt (key y) (key x)) eqn:E; [|done].
  rewrite filter_cons, IH, !filter_cons.
  destruct (decide (key y = k)) as [Hy|Hy]; [|done].
  destruct (decide (key x = k)) as [Hx|Hx]; [|done].
  rewrite Hy, Hx in E. by rewrite (lt_asym k k E) in E.
Qed.

(** The sort is stable: the elements with a given key keep their order. *)
Lemma list_sort_stable (k : K) (l : list A) :
  filter (fun y => key y = k) (list_sort key lt l)
  = filter (fun y => key y = k) l.
Proof.
  induction l as [|x l IH]; simpl; [done|].
  by rewrite sort_insert_filter, !filter_cons, IH.
Qed.
End ListSortFacts.

Lemma key_lt_false_iff (a b : nat * nat * Z) : key_lt b a = false <-> key_le a b.
Proof.
  destruct a as [[m1 d1] t1], b as [[m2 d2] t2]. unfold key_lt, key_le.
  repeat (match goal with
          | |- context [?x <? ?y] => destruct (Nat.ltb_spec x y)
          | |- context [(?x <? ?y)%Z] => destruct (Z.ltb_spec x y)
          end); split; intros; try done; lia.
Qed.

Lemma key_lt_asym (a b : nat * nat * Z) : key_lt a b = true -> key_lt b a = false.
Proof.
  intros H. apply key_lt_false_iff.
  destruct a as [[m1 d1] t1], b as [[m2 d2] t2]. unfold key_lt, key_le in *.
  repeat (match goal with
          | H : context [?x <? ?y] |- _ => destruct (Nat.ltb_spec x y)
          | H : context [(?x <? ?y)%Z] |- _ => destruct (Z.ltb_spec x y)
          end); try done; lia.
Qed.

Lemma key_le_trans (a b c : nat * nat * Z) :
  key_lt b a = false -> key_lt c b = false -> key_lt c a = false.
Proof.
  rewrite !key_lt_false_iff.
  destruct a as [[m1 d1] t1], b as [[m2 d2] t2], c as [[m3 d3] t3].
  unfold key_le. lia.
Qed.

(** ** Full ranked mode *)

Lemma match_step_qualifies user_set matches recipe :
  match_step user_set matches recipe
  = if qualifies user_set recipe then matches ++ [match_entry user_set recipe]
    else matches.
Proof.
  unfold match_step, qualifies.
  destruct (size (recipe_set_of recipe) =? 0); [done|]. simpl.
  by destruct (Qle_bool _ _ && _).
Qed.

Lemma qualifies_inclusion_rule user_set recipe :
  qualifies user_set recipe = true <-> inclusion_rule user_set recipe.
Proof.
  unfold qualifies, inclusion_rule. simpl.
  set (n := size (recipe_set_of recipe)).
  set (c := size (recipe_set_of recipe ∩ user_set)).
  rewrite !andb_true_iff, negb_true_iff, Nat.eqb_neq, Nat.leb_le, Qle_bool_iff.
  assert (Hq : n <> 0 ->
    (Z.of_nat c # Pos.of_nat n == inject_Z (Z.of_nat c) / inject_Z (Z.of_nat n))%Q).
  { intros Hn. rewrite Qmake_Qdiv.
    replace (Z.pos (Pos.of_nat n)) with (Z.of_nat n); [reflexivity|].
    destruct n; [done|]. by rewrite <- Pos.of_nat_succ, Zpos_P_of_succ_nat, Nat2Z.inj_succ. }
  split.
  - intros [[Hn Hr] Hm]. repeat split; [done| |done]. by rewrite <- Hq.
  - intros (Hn & Hr & Hm). repeat split; [done| |done]. by rewrite Hq.
Qed.

Lemma matches_loop user_set (db : list Recipe) (matches : list Match) :
  fold_left (match_step user_set) db matches
  = matches ++ (match_entry user_set <$> filter (fun r => qualifies user_set r = true) db).
Proof.
  revert matches. induction db as [|r db IH]; intros matches; simpl.
  - by rewrite app_nil_r.
  - rewrite IH, match_step_qualifies, filter_cons.
    destruct (qualifies user_set r) eqn:E.
    + rewrite decide_True by done. by rewrite <- app_assoc.
    + by rewrite decide_False by done.
Qed.

Lemma elem_of_matches_in_catalogue_order db user_set (c : Match) :
  c ∈ matches_in_catalogue_order db user_set <->
  exists r, r ∈ db /\ inclusion_rule user_set r /\ c = match_entry user_set r.
Proof.
  unfold matches_in_catalogue_order. rewrite matches_loop. simpl.
  rewrite list_elem_of_fmap. split.
  - intros (r & -> & Hr). apply list_elem_of_filter in Hr as [Hq Hr].
    exists r. by rewrite <- qualifies_inclusion_rule.
  - intros (r & Hr & Hq & ->). exists r. split; [done|].
    apply list_elem_of_filter. by rewrite qualifies_inclusion_rule.
Qed.

Lemma find_all_possible_recipes_sorted_matches db u :
  find_all_possible_recipes db u
  = list_sort sort_key key_lt
      (matches_in_catalogue_order db (list_to_set (normalize_ingredients u))).
Proof. reflexivity. Qed.

Lemma size_common_missing (recipe_set user_set : gset string) :
  size (recipe_set ∩ user_set) + size (recipe_set ∖ user_set) = size recipe_set.
Proof.
  rewrite <- size_union.
  - f_equal. apply set_eq. intros x.
    rewrite elem_of_union, elem_of_intersection, elem_of_difference.
    destruct (decide (x ∈ user_set)); tauto.
  - intros x. rewrite elem_of_intersection, elem_of_difference. tauto.
Qed.

(** A match ratio of exactly 0.6 leaves at least two ingredients missing, so
    the two bounds of the inclusion rule are never both met with equality. *)
Lemma ratio_six_tenths_two_missing (user_set : gset string) (recipe : Recipe) :
  (inject_Z (Z.of_nat (size (recipe_set_of recipe ∩ user_set)))
   / inject_Z (Z.of_nat (size (recipe_set_of recipe))) == 6 # 10)%Q ->
  2 <= size (recipe_set_of recipe ∖ user_set).
Proof.
  pose proof (size_common_missing (recipe_set_of recipe) user_set) as Hsum.
  destruct (size (recipe_set_of recipe)) as [|n] eqn:En.
  - intros H. exfalso. revert H. unfold Qeq, Qdiv, Qmult, Qinv. simpl. lia.
  - intros H.
    change (Z.of_nat (S n)) with (Z.pos (Pos.of_succ_nat n)) in H.
    rewrite <- Qmake_Qdiv in H. unfold Qeq in H. simpl in H.
    rewrite Zpos_P_of_succ_nat in H. lia.
Qed.

Lemma elem_of_find_all_possible_recipes db u (c : Match) :
  c ∈ find_all_possible_recipes db u <->
  exists r, r ∈ db
    /\ inclusion_rule (list_to_set (normalize_ingredients u)) r
    /\ c = match_entry (list_to_set (normalize_ingredients u)) r.
Proof.
  rewrite find_all_possible_recipes_sorted_matches.
  rewrite (list_sort_perm sort_key key_lt).
  apply elem_of_matches_in_catalogue_order.
Qed.

(** The inclusion rule by counts: nothing is missing, or one ingredient of
    at least three is. *)
Lemma inclusion_rule_sizes (user_set : gset string) (r : Recipe) :
  inclusion_rule user_set r <->
  (1 <= size (recipe_set_of r) /\ size (recipe_set_of r ∖ user_set) = 0)
  \/ (3 <= size (recipe_set_of r) /\ size (recipe_set_of r ∖ user_set) = 1).
Proof.
  rewrite <- qualifies_inclusion_rule. unfold qualifies. simpl.
  pose proof (size_common_missing (recipe_set_of r) user_set) as Hsum.
  rewrite !andb_true_iff, negb_true_iff, Nat.eqb_neq, Nat.leb_le, Qle_bool_iff.
  destruct (size (recipe_set_of r)) as [|n] eqn:En.
  - split; [intros [[? _] _]; done|lia].
  - unfold Qle. cbn [Qnum Qden].
    rewrite <- Pos.of_nat_succ, Zpos_P_of_succ_nat. lia.
Qed.

(** With one ingredient missing, a recipe that passes the rule has a match
    ratio of at least 2/3. *)
Lemma one_missing_ratio (user_set : gset string) (recipe : Recipe) :
  3 <= size (recipe_set_of recipe) ->
  size (recipe_set_of recipe ∖ user_set) = 1 ->
  (2 # 3 <= inject_Z (Z.of_nat (size (recipe_set_of recipe ∩ user_set)))
            / inject_Z (Z.of_nat (size (recipe_set_of recipe))))%Q.
Proof.
  pose proof (size_common_missing (recipe_set_of recipe) user_set) as Hsum.
  destruct (size (recipe_set_of recipe)) as [|n] eqn:En; [lia|].
  intros Hn Hmissing.
  change (Z.of_nat (S n)) with (Z.pos (Pos.of_succ_nat n)).
  rewrite <- Qmake_Qdiv. unfold Qle. cbn [Qnum Qden].
  rewrite Zpos_P_of_succ_nat. lia.
Qed.

(** C4 (amended).  A dictionary is in the list returned by
    [find_all_possible_recipes] exactly when it is the entry of a catalogue
    recipe whose normalised ingredient set is not empty, whose match ratio is
    at least 0.6 and which misses at most one ingredient.  In particular a
    recipe that misses 2 of its 3 ingredients is left out.  A recipe with
    ratio exactly 0.6 misses at least two ingredients and is left out as
    well; a recipe that misses exactly one ingredient is included exactly
    when it has at least three ingredients, and its ratio is then at least
    2/3. *)
Theorem find_all_possible_recipes_inclusion
    (db : list Recipe) (u : list string) :
  let user_set : gset string := list_to_set (normalize_ingredients u) in
  (forall c : Match,
     c ∈ find_all_possible_recipes db u <->
     exists r, r ∈ db /\ inclusion_rule user_set r /\ c = match_entry user_set r)
  /\ (forall r : Recipe,
        size (recipe_set_of r) = 3 ->
        size (recipe_set_of r ∖ user_set) = 2 ->
        ~ inclusion_rule user_set r)
  /\ (forall r : Recipe,
        (inject_Z (Z.of_nat (size (recipe_set_of r ∩ user_set)))
         / inject_Z (Z.of_nat (size (recipe_set_of r))) == 6 # 10)%Q ->
        2 <= size (recipe_set_of r ∖ user_set)
        /\ ~ inclusion_rule user_set r
        /\ forall c : Match,
             c ∈ find_all_possible_recipes [r] u -> False)
  /\ (forall r : Recipe,
        size (recipe_set_of r ∖ user_set) = 1 ->
        (inclusion_rule user_set r <-> 3 <= size (recipe_set_of r))
        /\ (inclusion_rule user_set r ->
            (2 # 3 <= inject_Z (Z.of_nat (size (recipe_set_of r ∩ user_set)))
                      / inject_Z (Z.of_nat (size (recipe_set_of r))))%Q)).
Proof.
  intros user_set. split; [|split; [|split]].
  - intros c. apply elem_of_find_all_possible_recipes.
  - intros r _ Hmissing (_ & _ & Hle). lia.
  - intros r Hratio.
    apply ratio_six_tenths_two_missing in Hratio.
    assert (~ inclusion_rule user_set r) as Hout
      by (intros (_ & _ & Hle); lia).
    split; [done|]. split; [done|].
    intros c Hc. apply elem_of_find_all_possible_recipes in Hc
      as (r' & Hr' & Hrule & _).
    apply list_elem_of_singleton in Hr' as ->. by apply Hout.
  - intros r Hmissing.
    assert (inclusion_rule user_set r <-> 3 <= size (recipe_set_of r)) as Hiff
      by (rewrite inclusion_rule_sizes; lia).
    split; [done|]. intros Hrule. apply one_missing_ratio; [|done].
    by apply Hiff.
Qed.

Lemma find_all_possible_recipes_inclusion_witness :
  match_entry (list_to_set ["rice"; "salt"]) dish_C
    ∈ find_all_possible_recipes [dish_E; dish_C] ["Rice"; "Salt"]
  /\ ~ inclusion_rule (list_to_set (normalize_ingredients ["Rice"; "Salt"])) dish_E
  /\ ~ inclusion_rule
        (list_to_set (normalize_ingredients ["Rice"; "Salt"; "Milk"])) dish_F
  /\ (inclusion_rule (list_to_set (normalize_ingredients ["Rice"; "Salt"])) dish_C
      <-> 3 <= size (recipe_set_of dish_C)).
Proof.
  split; [|split; [|split]].
  - apply (proj1 (find_all_possible_recipes_inclusion
                    [dish_E; dish_C] ["Rice"; "Salt"])).
    exists dish_C. split; [set_solver|]. split.
    + apply qualifies_inclusion_rule. by vm_compute.
    + by vm_compute.
  - apply (proj1 (proj2 (find_all_possible_recipes_inclusion
                           [dish_E; dish_C] ["Rice"; "Salt"]))).
    + by vm_compute.
    + by vm_compute.
  - apply (proj1 (proj2 (proj2 (find_all_possible_recipes_inclusion
                                  [dish_F] ["Rice"; "Salt"; "Milk"]))) dish_F).
    by vm_compute.
  - apply (proj2 (proj2 (proj2 (find_all_possible_recipes_inclusion
                                  [dish_E; dish_C] ["Rice"; "Salt"]))) dish_C).
    by vm_compute.
Defined.

(** C4, as stated, has no boundary case of the kind it names: [dish_F] has
    a match ratio of exactly 0.6 with three of its five ingredients at hand,
    misses two, not one, and is left out of the list. *)
Lemma find_all_possible_recipes_six_tenths_counterexample :
  (inject_Z (Z.of_nat (size (recipe_set_of dish_F
       ∩ list_to_set (normalize_ingredients ["Rice"; "Salt"; "Milk"]))))
   / inject_Z (Z.of_nat (size (recipe_set_of dish_F))) == 6 # 10)%Q
  /\ size (recipe_set_of dish_F
            ∖ list_to_set (normalize_ingredients ["Rice"; "Salt"; "Milk"])) = 2
  /\ find_all_possible_recipes [dish_F] ["Rice"; "Salt"; "Milk"] = [].
Proof. by vm_compute. Qed.

(** The inclusion boundary on a catalogue: [dish_E] misses 2 of its 3
    ingredients and is left out, [dish_C] misses 1 of 3 and is kept. *)
Example find_all_possible_recipes_boundary :
  match_name <$> find_all_possible_recipes [dish_E; dish_C] ["Rice"; "Salt"]
  = [Some "C"].
Proof. by vm_compute. Qed.

Lemma StronglySorted_weaken {A : Type} (R1 R2 : A -> A -> Prop) (l : list A) :
  (forall a b, R1 a b -> R2 a b) -> StronglySorted R1 l -> StronglySorted R2 l.
Proof.
  intros Himpl. induction 1 as [|x l Hsorted IH Hall]; constructor; [done|].
  eapply Forall_impl; [exact Hall|]. intros y. apply Himpl.
Qed.

Lemma difficulty_rank_get_other (d : string) :
  d <> "Easy" -> d <> "Medium" -> d <> "Hard" ->
  difficulty_rank_get (Some d) = 3.
Proof.
  intros HE HM HH. unfold difficulty_rank_get, difficulty_rank. simpl.
  by rewrite !lookup_insert_ne, lookup_empty.
Qed.

(** C5.  The list returned by [find_all_possible_recipes] holds the
    qualifying entries of the catalogue, sorted in ascending order of the
    tuple (missing count, difficulty rank, time or 999); the sort is stable,
    so entries with the same tuple stay in catalogue order.  The rank is 0
    for Easy, 1 for Medium, 2 for Hard and 3 for anything else or no
    difficulty, and an absent or zero time counts as 999. *)
Theorem find_all_possible_recipes_ranking
    (db : list Recipe) (u : list string) :
  let user_set : gset string := list_to_set (normalize_ingredients u) in
  let in_catalogue_order :=
    match_entry user_set <$> filter (fun r => qualifies user_set r = true) db in
  let ranked := find_all_possible_recipes db u in
  ranked ≡ₚ in_catalogue_order
  /\ StronglySorted (fun a b => key_le (sort_key a) (sort_key b)) ranked
  /\ (forall k : nat * nat * Z,
        filter (fun c => sort_key c = k) ranked
        = filter (fun c => sort_key c = k) in_catalogue_order)
  /\ (forall r : Recipe,
        sort_key (match_entry user_set r)
        = (size (recipe_set_of r ∖ user_set),
           difficulty_rank_get (recipe_difficulty r),
           time_or_999 (recipe_time r)))
  /\ (difficulty_rank_get (Some "Easy") = 0
      /\ difficulty_rank_get (Some "Medium") = 1
      /\ difficulty_rank_get (Some "Hard") = 2
      /\ difficulty_rank_get None = 3
      /\ forall d : string,
           d <> "Easy" -> d <> "Medium" -> d <> "Hard" ->
           difficulty_rank_get (Some d) = 3)
  /\ (time_or_999 None = 999%Z
      /\ time_or_999 (Some 0%Z) = 999%Z
      /\ forall t : Z, t <> 0%Z -> time_or_999 (Some t) = t).
Proof.
  intros user_set in_catalogue_order ranked.
  assert (Hloop : matches_in_catalogue_order db user_set = in_catalogue_order).
  { unfold matches_in_catalogue_order. by rewrite matches_loop. }
  subst ranked. rewrite find_all_possible_recipes_sorted_matches.
  fold user_set. rewrite Hloop.
  split; [|split; [|split; [|split; [|split]]]].
  - apply list_sort_perm.
  - eapply StronglySorted_weaken;
      [|apply (list_sort_sorted sort_key key_lt key_lt_asym key_le_trans)].
    intros a b Hab. by apply key_lt_false_iff.
  - intros k. apply (list_sort_stable sort_key key_lt key_lt_asym).
  - done.
  - repeat split. apply difficulty_rank_get_other.
  - repeat split. intros t Ht. simpl.
    destruct (Z.eqb_spec t 0); [done|done].
Qed.

Lemma find_all_possible_recipes_ranking_witness :
  difficulty_rank_get (Some "Expert") = 3 /\ time_or_999 (Some 45%Z) = 45%Z.
Proof.
  pose proof (find_all_possible_recipes_ranking [dish_A; dish_B] ["rice"])
    as (_ & _ & _ & _ & (_ & _ & _ & _ & Hrank) & (_ & _ & Htime)).
  split.
  - apply Hrank; discriminate.
  - apply Htime. discriminate.
Defined.

(** The orderings of the specification: with nothing missing, Easy in 10
    minutes ([B]) comes before Hard in 30 ([A]); and Hard with nothing
    missing ([D], [A]) comes before Easy with one ingredient missing ([C]).
    [A] and [D] have equal keys and keep their catalogue order. *)
Example find_all_possible_recipes_order :
  match_name <$>
    find_all_possible_recipes [dish_C; dish_A; dish_D; dish_B] ["rice"; "salt"]
  = [Some "B"; Some "A"; Some "D"; Some "C"].
Proof. by vm_compute. Qed.

(** ** Dish options *)

Lemma find_all_possible_recipes_nil_iff db u :
  find_all_possible_recipes db u = [] <->
  forall r, r ∈ db ->
    ~ inclusion_rule (list_to_set (normalize_ingredients u)) r.
Proof.
  split.
  - intros Hnil r Hr Hrule.
    assert (match_entry (list_to_set (normalize_ingredients u)) r
              ∈ find_all_possible_recipes db u) as Hin.
    { apply elem_of_find_all_possible_recipes. by exists r. }
    rewrite Hnil in Hin. by apply elem_of_nil in Hin.
  - intros Hnone.
    destruct (find_all_possible_recipes db u) as [|c l] eqn:E; [done|].
    assert (c ∈ find_all_possible_recipes db u) as Hin
      by (rewrite E; apply list_elem_of_here).
    apply elem_of_find_all_possible_recipes in Hin as (r & Hr & Hrule & _).
    by destruct (Hnone r Hr).
Qed.


(** C8.  When no catalogue recipe passes the inclusion rule for the
    normalised ingredients of the request, [get_dish_options] answers with
    exactly one dish, the generated "Quick Kitchen Stir Fry" (Easy, 15
    minutes, 250 calories, nothing missing, flagged as generated), and with
    count 1.  The list of dishes is never empty, whatever the request. *)
Theorem get_dish_options_fallback (db : list Recipe) (data : RequestData) :
  let user_set : gset string :=
    list_to_set (normalize_ingredients (default [] (data_ingredients data))) in
  ((forall r, r ∈ db -> ~ inclusion_rule user_set r) ->
   get_dish_options db data
   = {| options_count := 1;
        options_dishes :=
          [ DishGenerated
              {| gen_name := "Quick Kitchen Stir Fry";
                 gen_difficulty := "Easy";
                 gen_time := 15;
                 gen_calories := 250;
                 gen_missing := [];
                 gen_ai_generated := true |} ] |})
  /\ options_dishes (get_dish_options db data) <> []
  /\ options_count (get_dish_options db data)
     = length (options_dishes (get_dish_options db data))
  /\ 1 <= options_count (get_dish_options db data).
Proof.
  intros user_set. unfold get_dish_options.
  set (ingredients := normalize_ingredients (default [] (data_ingredients data))).
  split.
  - intros Hnone.
    assert (find_all_possible_recipes db ingredients = []) as ->; [|done].
    apply find_all_possible_recipes_nil_iff.
    subst ingredients. rewrite normalize_ingredients_idemp_set. exact Hnone.
  - destruct (find_all_possible_recipes db ingredients) as [|c l]; simpl.
    + repeat split; [done|lia].
    + repeat split; [done|lia].
Qed.

Lemma get_dish_options_fallback_witness :
  get_dish_options [dish_E]
    {| data_ingredients := Some ["Rice"; "Salt"]; data_selected_dish := None |}
  = {| options_count := 1;
       options_dishes := [DishGenerated quick_kitchen_stir_fry] |}.
Proof.
  apply (proj1 (get_dish_options_fallback [dish_E]
    {| data_ingredients := Some ["Rice"; "Salt"]; data_selected_dish := None |})).
  intros r Hr. apply list_elem_of_singleton in Hr as ->.
  rewrite <- qualifies_inclusion_rule. by vm_compute.
Defined.

(** ** Recipe assembly *)

Lemma project_steps_cons (step : Step) (rest : list Step) :
  project_steps (step :: rest)
  = match step with
    | StepDict text time =>
        [ {| step_description := text; step_time := default 5%Z time |} ]
    | StepOther _ => []
    end ++ project_steps rest.
Proof.
  unfold project_steps.
  assert (Hacc : forall steps acc,
    fold_left
      (fun timed_steps step =>
         match step with
         | StepDict text time =>
             timed_steps ++
               [ {| step_description := text; step_time := default 5%Z time |} ]
         | StepOther _ => timed_steps
         end) steps acc
    = acc ++ fold_left
      (fun timed_steps step =>
         match step with
         | StepDict text time =>
             timed_steps ++
               [ {| step_description := text; step_time := default 5%Z time |} ]
         | StepOther _ => timed_steps
         end) steps []).
  { induction steps as [|s steps IH]; intros acc; simpl.
    - by rewrite app_nil_r.
    - rewrite IH. rewrite (IH (match s with StepDict _ _ => _ | StepOther _ => _ end)).
      destruct s; simpl; [by rewrite <- app_assoc|done]. }
  simpl. rewrite Hacc. by destruct step.
Qed.

Lemma sum_times_foldr (timed_steps : list TimedStep) :
  sum_times timed_steps
  = foldr (fun s total => (step_time s + total)%Z) 0%Z timed_steps.
Proof.
  unfold sum_times.
  assert (Hacc : forall l acc,
    fold_left (fun total s => (total + step_time s)%Z) l acc
    = (acc + foldr (fun s total => (step_time s + total)%Z) 0%Z l)%Z).
  { induction l as [|s l IH]; intros acc; simpl; [lia|]. rewrite IH. lia. }
  rewrite Hacc. lia.
Qed.

(** C9.  The steps of the response are the projection of the steps of the
    resolved recipe: a step record without a duration gets duration 5, a
    step record with a duration keeps it, an entry that is no record is
    dropped; and [total_time] is the sum of the durations of the projected
    steps. *)
Theorem generate_recipe_timed_steps (db : list Recipe) (data : RequestData) :
  let response := generate_recipe db data in
  resp_steps response
  = project_steps (default [] (recipe_steps (resolve_recipe db data)))
  /\ resp_total_time response
     = foldr (fun s total => (step_time s + total)%Z) 0%Z (resp_steps response)
  /\ project_steps [] = []
  /\ (forall text rest,
        project_steps (StepDict text None :: rest)
        = {| step_description := text; step_time := 5 |} :: project_steps rest)
  /\ (forall text duration rest,
        project_steps (StepDict text (Some duration) :: rest)
        = {| step_description := text; step_time := duration |}
            :: project_steps rest)
  /\ (forall raw rest,
        project_steps (StepOther raw :: rest) = project_steps rest).
Proof.
  simpl. split; [done|]. split; [apply sum_times_foldr|].
  split; [done|].
  split; [|split]; intros; by rewrite project_steps_cons.
Qed.

(** A recipe whose steps lack durations: each such step counts 5 minutes,
    the bare string is dropped, and the total is 5 + 5 + 3. *)
Example generate_recipe_default_durations :
  let porridge :=
    {| recipe_name := Some "Porridge";
       recipe_ingredients := Some ["oats"; "milk"];
       recipe_preview := None;
       recipe_difficulty := Some "Easy";
       recipe_time := None;
       recipe_calories := Some 150%Z;
       recipe_steps :=
         Some [ StepDict (Some "Boil the milk") None;
                StepOther "stir";
                StepDict None None;
                StepDict (Some "Serve") (Some 3%Z) ] |} in
  let response :=
    generate_recipe [porridge]
      {| data_ingredients := None; data_selected_dish := Some " PORRIDGE " |} in
  (step_time <$> resp_steps response) = [5; 5; 3]%Z
  /\ resp_total_time response = 13%Z.
Proof. by vm_compute. Qed.

Lemma find_none_iff {A : Type} (f : A -> bool) (l : list A) :
  List.find f l = None <-> forall x, x ∈ l -> f x = false.
Proof.
  induction l as [|a l IH]; simpl.
  - split; [|done]. intros _ x Hx. by apply elem_of_nil in Hx.
  - destruct (f a) eqn:E.
    + split; [done|]. intros H. rewrite H in E; [done|]. apply list_elem_of_here.
    + rewrite IH. split.
      * intros H x Hx. apply elem_of_cons in Hx as [->|Hx]; [done|by apply H].
      * intros H x Hx. apply H. by apply list_elem_of_further.
Qed.

(** C10 (amended).  When the request names a dish with a non-empty string
    that matches no catalogue name (trimmed, case-insensitively), the best
    single match is not consulted: the recipe is looked up by name only and
    the response is the synthesised "Custom Dish" (the normalised ingredients
    of the request, 220 calories, Easy, the single step "Cook everything
    well" of 10 minutes).  The best single match is used when the request
    names no dish or names the empty string. *)
Theorem generate_recipe_unmatched_name (db : list Recipe) (data : RequestData) :
  let ingredients :=
    normalize_ingredients (default [] (data_ingredients data)) in
  (forall selected_dish,
     data_selected_dish data = Some selected_dish ->
     selected_dish <> "" ->
     select_recipe db (data_selected_dish data) ingredients
     = List.find (name_matches selected_dish) db)
  /\ (forall selected_dish,
        data_selected_dish data = Some selected_dish ->
        selected_dish <> "" ->
        (forall r, r ∈ db -> name_matches selected_dish r = false) ->
        generate_recipe db data
        = {| resp_name := Some "Custom Dish";
             resp_ingredients := Some ingredients;
             resp_calories := Some 220%Z;
             resp_difficulty := Some "Easy";
             resp_steps :=
               [ {| step_description := Some "Cook everything well";
                    step_time := 10 |} ];
             resp_total_time := 10 |})
  /\ (data_selected_dish data = None \/ data_selected_dish data = Some "" ->
        select_recipe db (data_selected_dish data) ingredients
        = find_best_recipe db ingredients).
Proof.
  intros ingredients. split; [|split].
  - intros s -> Hs. by destruct s.
  - intros s Hsel Hs Hnone.
    unfold generate_recipe, resolve_recipe. fold ingredients. rewrite Hsel.
    assert (select_recipe db (Some s) ingredients = None) as ->; [|done].
    destruct s; [done|]. simpl. by apply find_none_iff.
  - by intros [-> | ->].
Qed.

Lemma generate_recipe_unmatched_name_witness :
  resp_name
    (generate_recipe [salted_rice]
       {| data_ingredients := Some ["Rice"];
          data_selected_dish := Some "Biryani" |})
  = Some "Custom Dish".
Proof.
  rewrite (proj1 (proj2 (generate_recipe_unmatched_name [salted_rice]
             {| data_ingredients := Some ["Rice"];
                data_selected_dish := Some "Biryani" |}))
             "Biryani" eq_refl).
  - reflexivity.
  - discriminate.
  - intros r Hr. apply list_elem_of_singleton in Hr as ->. by vm_compute.
Defined.

(** C10, as stated, fails for the empty name: it is supplied, it matches no
    catalogue recipe, and yet the best single match is consulted and its
    recipe is returned instead of "Custom Dish". *)
Lemma generate_recipe_empty_name_counterexample :
  name_matches "" salted_rice = false
  /\ resp_name
       (generate_recipe [salted_rice]
          {| data_ingredients := Some ["Rice"]; data_selected_dish := Some "" |})
     = Some "Salted Rice".
Proof. by vm_compute. Qed.

(** ** Analytics *)

Lemma strptime_weekday_empty : strptime_weekday "" = None.
Proof. reflexivity. Qed.

Lemma timestamp_absent_bucket (mem : Memory) :
  timestamp_absent mem -> bucket_of mem = None.
Proof.
  unfold timestamp_absent, bucket_of.
  destruct (cooked_at_value mem) as [|b|z|q|s|l|d]; simpl; try done.
  destruct s; [done|]. discriminate.
Qed.

(** The Counter update over entries that can all be hashed. *)
Lemma count_entries_ok (l : list JValue) (counter : Counter) :
  Forall (fun ing => hashable ing = true) l ->
  for_each count_entry l counter = Ok (fold_left counter_incr l counter).
Proof.
  intros Hall. revert counter.
  induction Hall as [|ing l Hing _ IH]; intros counter; [done|].
  cbn [for_each]. unfold count_entry at 2. rewrite Hing. apply IH.
Qed.

(** The Counter update completes only over such entries. *)
Lemma count_entries_inv (l : list JValue) (counter counter' : Counter) :
  for_each count_entry l counter = Ok counter' ->
  Forall (fun ing => hashable ing = true) l
  /\ counter' = fold_left counter_incr l counter.
Proof.
  revert counter. induction l as [|ing l IH]; intros counter; cbn [for_each].
  - intros [= <-]. by split.
  - unfold count_entry at 2. destruct (hashable ing) eqn:Hing; [|done].
    intros Hloop. destruct (IH _ Hloop) as [Hall ->]. split; [|done].
    by constructor.
Qed.

(** One iteration on a memory whose timestamp is absent or parses and whose
    ingredients can be counted. *)
Lemma analytics_step_ok (st : AnalyticsState) (mem : Memory) :
  timestamp_absent mem \/ timestamp_parses mem ->
  ingredients_countable mem ->
  exists st',
    analytics_step st mem = Ok st'
    /\ total_calories st' = (total_calories st + coerce_calories mem)%Z
    /\ weekly_calories st'
       = match bucket_of mem with
         | Some weekday =>
             alter (fun w => (w + coerce_calories mem)%Z) weekday
                   (weekly_calories st)
         | None => weekly_calories st
         end.
Proof.
  intros Hstamp (l & Hl & Hhash). unfold analytics_step.
  fold (cooked_at_value mem).
  rewrite Hl. destruct Hstamp as [Habsent | (s & weekday & Hs & Hne & Hparse)].
  - rewrite (timestamp_absent_bucket mem Habsent).
    unfold timestamp_absent in Habsent. rewrite Habsent. simpl.
    rewrite (count_entries_ok l _ Hhash). simpl.
    eexists. by repeat split.
  - unfold bucket_of. rewrite Hs, Hparse. simpl.
    destruct (String.eqb_spec s ""); [done|]. simpl. rewrite Hparse. simpl.
    rewrite (count_entries_ok l _ Hhash). simpl.
    eexists. by repeat split.
Qed.

(** One iteration on a memory whose ingredients cannot be counted raises. *)
Lemma analytics_step_uncountable (st : AnalyticsState) (mem : Memory) :
  ~ ingredients_countable mem ->
  exists e, analytics_step st mem = Raise e.
Proof.
  intros Hnot. unfold analytics_step.
  destruct (if truthy (default JNull (mem_cooked_at mem)) then _ else _)
    as [weekly|e]; simpl; [|by exists e].
  destruct (iterate (default (JList []) (mem_ingredients mem)))
    as [l|e] eqn:Hl; simpl; [|by exists e].
  destruct (for_each count_entry l (ingredient_counter st))
    as [counter|e] eqn:Hcount; simpl; [|by exists e].
  destruct Hnot. exists l. split; [done|].
  by destruct (count_entries_inv _ _ _ Hcount).
Qed.

Lemma analytics_loop_ok (memories : list Memory) (st : AnalyticsState) :
  Forall (fun mem => (timestamp_absent mem \/ timestamp_parses mem)
                     /\ ingredients_countable mem) memories ->
  exists st',
    for_each analytics_step memories st = Ok st'
    /\ total_calories st' = (total_calories st + calories_total memories)%Z
    /\ length (weekly_calories st') = length (weekly_calories st)
    /\ forall weekday,
         weekly_calories st' !! weekday
         = (fun w => (w + bucket_total weekday memories)%Z)
             <$> weekly_calories st !! weekday.
Proof.
  intros Hall. revert st.
  induction Hall as [|mem memories [Hstamp Hiter] _ IH]; intros st.
  - exists st. simpl. repeat split; [lia|].
    intros weekday. destruct (weekly_calories st !! weekday); simpl; [|done].
    f_equal. lia.
  - destruct (analytics_step_ok st mem Hstamp Hiter) as (st1 & Hstep & Htot & Hweek).
    destruct (IH st1) as (st' & Hloop & Htot' & Hlen' & Hweek').
    exists st'. simpl. rewrite Hstep. simpl.
    split; [done|]. split; [lia|]. split.
    + rewrite Hlen', Hweek. destruct (bucket_of mem); [apply length_alter|done].
    + intros weekday. rewrite Hweek', Hweek.
      destruct (bucket_of mem) as [d|] eqn:Hb.
      * destruct (decide (d = weekday)) as [->|Hd].
        -- rewrite list_lookup_alter_eq, decide_True by done.
           destruct (weekly_calories st !! weekday); simpl; [|done].
           f_equal. lia.
        -- rewrite list_lookup_alter_ne by done.
           rewrite decide_False by congruence. done.
      * by rewrite decide_False by done.
Qed.

(** One iteration on a memory whose timestamp is text that does not parse
    raises. *)
Lemma analytics_step_unparsable (st : AnalyticsState) (mem : Memory) :
  timestamp_unparsable mem ->
  exists e, analytics_step st mem = Raise e.
Proof.
  intros (s & Hs & Hne & Hparse).
  exists ValueError. unfold analytics_step. fold (cooked_at_value mem).
  rewrite Hs. simpl. destruct (String.eqb_spec s ""); [done|]. simpl.
  by rewrite Hparse.
Qed.

(** A memory on which the iteration raises ends the loop with an exception,
    wherever the memory stands in the list. *)
Lemma analytics_loop_raises (memories : list Memory) (st : AnalyticsState) :
  (exists mem, mem ∈ memories
     /\ forall st1, exists e, analytics_step st1 mem = Raise e) ->
  exists e, for_each analytics_step memories st = Raise e.
Proof.
  intros (bad & Hin & Hbad). revert st.
  induction memories as [|mem memories IH]; intros st.
  - by apply elem_of_nil in Hin.
  - simpl. apply elem_of_cons in Hin as [<-|Hin].
    + destruct (Hbad st) as [e ->]. by exists e.
    + destruct (analytics_step st mem) as [st1|e]; simpl.
      * by apply IH.
      * by exists e.
Qed.

(** C1 (amended).  Over a memory list whose ingredients can be counted (the
    stored value can be iterated and every entry it yields can be a
    dictionary key) and whose timestamps are each absent or parse under the
    fixed format, [analytics_data] completes: a memory with an absent
    timestamp adds its coerced calories to [totalCalories], is counted in
    [totalRecipes] and falls in no weekday bucket.  A timestamp that is text
    but does not parse is not recovered: the request raises and no summary
    is produced.  Nor are ingredients that cannot be counted: the request
    raises for them as well. *)
Theorem analytics_data_timestamps (session : Session) (memories : list Memory) :
  session_memories session = Some memories ->
  (Forall (fun mem => (timestamp_absent mem \/ timestamp_parses mem)
                      /\ ingredients_countable mem) memories ->
   exists summary,
     analytics_data session = Ok summary
     /\ totalCalories summary = calories_total memories
     /\ totalRecipes summary = length memories
     /\ length (weeklyCalories summary) = 7
     /\ forall weekday, weekday < 7 ->
          weeklyCalories summary !! weekday
          = Some (bucket_total weekday memories))
  /\ (forall mem, timestamp_absent mem -> bucket_of mem = None)
  /\ ((exists mem, mem ∈ memories /\ timestamp_unparsable mem) ->
      exists e, analytics_data session = Raise e)
  /\ ((exists mem, mem ∈ memories /\ ~ ingredients_countable mem) ->
      exists e, analytics_data session = Raise e).
Proof.
  intros Hsession. unfold analytics_data. rewrite Hsession.
  split; [|split; [|split]].
  - intros Hall.
    destruct (analytics_loop_ok memories
                {| total_calories := 0;
                   ingredient_counter := [];
                   weekly_calories := replicate 7 0%Z |} Hall)
      as (st & -> & Htot & Hlen & Hweek).
    simpl in *. eexists. split; [reflexivity|]. simpl.
    repeat split; [lia|done|].
    intros weekday Hday. rewrite Hweek.
    do 7 (destruct weekday as [|weekday]; [simpl; f_equal; lia|]). lia.
  - apply timestamp_absent_bucket.
  - intros (bad & Hin & Hbad).
    destruct (analytics_loop_raises memories
                {| total_calories := 0;
                   ingredient_counter := [];
                   weekly_calories := replicate 7 0%Z |}) as [e ->].
    + exists bad. split; [done|].
      intros st1. by apply analytics_step_unparsable.
    + by exists e.
  - intros (bad & Hin & Hbad).
    destruct (analytics_loop_raises memories
                {| total_calories := 0;
                   ingredient_counter := [];
                   weekly_calories := replicate 7 0%Z |}) as [e ->].
    + exists bad. split; [done|].
      intros st1. by apply analytics_step_uncountable.
    + by exists e.
Qed.

Lemma analytics_data_timestamps_witness :
  (exists summary,
     analytics_data (session_with [m0; undated; m1; m2]) = Ok summary
     /\ totalCalories summary = calories_total [m0; undated; m1; m2]
     /\ totalRecipes summary = length [m0; undated; m1; m2]
     /\ length (weeklyCalories summary) = 7
     /\ forall weekday, weekday < 7 ->
          weeklyCalories summary !! weekday
          = Some (bucket_total weekday [m0; undated; m1; m2]))
  /\ (exists e, analytics_data (session_with [m0; misdated]) = Raise e)
  /\ (exists e, analytics_data (session_with [m0; nested]) = Raise e).
Proof.
  split; [|split].
  - apply (proj1 (analytics_data_timestamps
                    (session_with [m0; undated; m1; m2])
                    [m0; undated; m1; m2] eq_refl)).
    repeat (apply List.Forall_cons;
      [split;
        [first [ left; reflexivity
               | right; eexists _, _;
                 split; [reflexivity|split; [discriminate|by vm_compute]] ]
        | eexists; split; [reflexivity|];
          repeat (apply List.Forall_cons; [reflexivity|]);
          apply List.Forall_nil ]|]).
    apply List.Forall_nil.
  - apply (proj1 (proj2 (proj2 (analytics_data_timestamps
                                  (session_with [m0; misdated])
                                  [m0; misdated] eq_refl)))).
    exists misdated. split; [apply list_elem_of_further, list_elem_of_here|].
    eexists. split; [reflexivity|split; [discriminate|by vm_compute]].
  - apply (proj2 (proj2 (proj2 (analytics_data_timestamps
                                  (session_with [m0; nested])
                                  [m0; nested] eq_refl)))).
    exists nested. split; [apply list_elem_of_further, list_elem_of_here|].
    intros (l & Hl & Hall). injection Hl as <-.
    inversion Hall as [|ing l' Hing]. discriminate Hing.
Defined.

(** The summary of the witness: 180 + 120 + 0 + 90 calories over four
    memories; the undated memory is in no bucket, Monday holds 180 and
    Tuesday 0 + 90. *)
Example analytics_data_undated :
  analytics_data (session_with [m0; undated; m1; m2])
  = Ok {| totalCalories := 390;
          totalRecipes := 4;
          topIngredient := JStr "onion";
          weeklyCalories := [180; 90; 0; 0; 0; 0; 0]%Z;
          ingredientLabels := JStr <$> ["lentil"; "onion"; "rice"; "curd"];
          ingredientCounts := [1; 3; 1; 1] |}.
Proof. by vm_compute. Qed.

(** C1, as stated, fails for a timestamp that does not parse: the other
    memories are in order, and the aggregation aborts with [ValueError]
    instead of completing. *)
Lemma analytics_data_unparsable_counterexample :
  timestamp_unparsable misdated
  /\ analytics_data (session_with [m0; misdated; m2]) = Raise ValueError.
Proof.
  split; [|by vm_compute].
  eexists. split; [reflexivity|split; [discriminate|by vm_compute]].
Qed.

(** Ingredients that were sent as the JSON text [[["a"]]] are stored as they
    are decoded, can be iterated, and end the aggregation with [TypeError]
    when the inner list is used as a key of the counter. *)
Example analytics_data_nested_ingredients :
  iterate (default (JList []) (mem_ingredients nested)) = Ok [JList [JStr "a"]]
  /\ analytics_data (session_with [m0; nested; m2]) = Raise TypeError.
Proof. by vm_compute. Qed.

(** [int] skips blanks around the digits but not the separator [0x1c], which
    [str.strip] would remove: calories stored as that separator followed by
    [5] count as 0. *)
Example coerce_calories_separator :
  int_of_str " 5 " = Some 5%Z
  /\ int_of_str (String (ascii_of_nat 9) "-12 ") = Some (-12)%Z
  /\ int_of_str (String (ascii_of_nat 28) "5") = None
  /\ strip (String (ascii_of_nat 28) "5") = "5"
  /\ coerce_calories
       {| mem_name := None;
          mem_calories := Some (JStr (String (ascii_of_nat 28) "5"));
          mem_ingredients := None;
          mem_image := None;
          mem_note := None;
          mem_cooked_at := None |} = 0%Z.
Proof. by vm_compute. Qed.

(** Keys of the counter are compared by value: [True], [1] and [1.0] are one
    key, kept as the entry that came first. *)
Example analytics_data_mixed_keys :
  (summary ← analytics_data
     (session_with
        [ {| mem_name := None;
             mem_calories := None;
             mem_ingredients :=
               Some (JList [JBool true; JInt 1; JFloat 1; JNull; JStr "a"]);
             mem_image := None;
             mem_note := None;
             mem_cooked_at := None |} ]);
   Ok (ingredientLabels summary, ingredientCounts summary))
  = Ok ([JBool true; JNull; JStr "a"], [3; 1; 1]).
Proof. by vm_compute. Qed.

(** * Further properties *)

(** ** Timestamps written by [save_memory] *)

Lemma digit_char_spec (k : Z) :
  (0 <= k <= 9)%Z ->
  is_digit (digit_char k) = true
  /\ digit_value (digit_char k) = k
  /\ is_space (digit_char k) = false.
Proof.
  intros Hk.
  assert (k = 0 \/ k = 1 \/ k = 2 \/ k = 3 \/ k = 4 \/ k = 5 \/ k = 6
          \/ k = 7 \/ k = 8 \/ k = 9)%Z as Hcases by lia.
  repeat (destruct Hcases as [->|Hcases]; [by vm_compute|]).
  subst k. by vm_compute.
Qed.

Lemma append_String (c : ascii) (s rest : string) :
  String.append (String c s) rest = String c (String.append s rest).
Proof. reflexivity. Qed.

Lemma append_Empty (rest : string) : String.append EmptyString rest = rest.
Proof. reflexivity. Qed.

Lemma fmt2_digits (n : Z) :
  (0 <= n <= 99)%Z ->
  (0 <= n / 10 <= 9 /\ 0 <= n mod 10 <= 9 /\ 10 * (n / 10) + n mod 10 = n)%Z.
Proof. intros Hn. Z.div_mod_to_equations. lia. Qed.

Lemma two_digits_fmt2 (lo hi lo1 n : Z) (rest : string) :
  (0 <= n <= 99)%Z -> (lo <= n <= hi)%Z ->
  two_digits lo hi lo1 (String.append (fmt2 n) rest) = Some (n, rest).
Proof.
  intros Hn Hrange. destruct (fmt2_digits n Hn) as (H1 & H2 & Hsum).
  destruct (digit_char_spec _ H1) as (Hd1 & Hv1 & _).
  destruct (digit_char_spec _ H2) as (Hd2 & Hv2 & _).
  unfold fmt2, two_digits. rewrite !append_String, append_Empty.
  rewrite Hd1, Hd2, Hv1, Hv2, Hsum.
  destruct (Z.leb_spec lo n); [|lia].
  by destruct (Z.leb_spec n hi); [|lia].
Qed.

Lemma skip_spaces_fmt2 (n : Z) (rest : string) :
  (0 <= n <= 99)%Z ->
  skip_spaces (String " " (String.append (fmt2 n) rest))
  = Some (String.append (fmt2 n) rest).
Proof.
  intros Hn. destruct (fmt2_digits n Hn) as (H1 & _).
  destruct (digit_char_spec _ H1) as (_ & _ & Hs).
  unfold fmt2. rewrite !append_String, append_Empty.
  cbn [skip_spaces]. change (is_space " ") with true. cbn [lstrip].
  by rewrite Hs.
Qed.

Lemma fmt4_digits (n : Z) :
  (0 <= n <= 9999)%Z ->
  (0 <= n / 1000 <= 9 /\ 0 <= n / 100 mod 10 <= 9
   /\ 0 <= n / 10 mod 10 <= 9 /\ 0 <= n mod 10 <= 9
   /\ 1000 * (n / 1000) + 100 * (n / 100 mod 10)
      + 10 * (n / 10 mod 10) + n mod 10 = n)%Z.
Proof.
  intros Hn. Z.div_mod_to_equations. lia.
Qed.

Lemma parse_year_fmt4 (n : Z) (rest : string) :
  (0 <= n <= 9999)%Z ->
  parse_year (String.append (fmt4 n) rest) = Some (n, rest).
Proof.
  intros Hn. destruct (fmt4_digits n Hn) as (H1 & H2 & H3 & H4 & Hsum).
  destruct (digit_char_spec _ H1) as (Hd1 & Hv1 & _).
  destruct (digit_char_spec _ H2) as (Hd2 & Hv2 & _).
  destruct (digit_char_spec _ H3) as (Hd3 & Hv3 & _).
  destruct (digit_char_spec _ H4) as (Hd4 & Hv4 & _).
  unfold fmt4, parse_year. rewrite !append_String, append_Empty.
  rewrite Hd1, Hd2, Hd3, Hd4, Hv1, Hv2, Hv3, Hv4. simpl andb.
  by rewrite Hsum.
Qed.

Lemma skip_spaces_fmt4 (n : Z) (rest : string) :
  (0 <= n <= 9999)%Z ->
  skip_spaces (String " " (String.append (fmt4 n) rest))
  = Some (String.append (fmt4 n) rest).
Proof.
  intros Hn. destruct (fmt4_digits n Hn) as (H1 & _).
  destruct (digit_char_spec _ H1) as (_ & _ & Hs).
  unfold fmt4. rewrite !append_String, append_Empty.
  cbn [skip_spaces]. change (is_space " ") with true. cbn [lstrip].
  by rewrite Hs.
Qed.

Lemma month_cases (m : Z) :
  (1 <= m <= 12)%Z ->
  (m = 1 \/ m = 2 \/ m = 3 \/ m = 4 \/ m = 5 \/ m = 6 \/ m = 7 \/ m = 8
   \/ m = 9 \/ m = 10 \/ m = 11 \/ m = 12)%Z.
Proof. lia. Qed.

Lemma parse_month_name (m : Z) (rest : string) :
  (1 <= m <= 12)%Z ->
  skip_spaces (String " " (String.append (month_name m) rest))
  = Some (String.append (month_name m) rest)
  /\ parse_month (String.append (month_name m) rest) = Some (m, rest).
Proof.
  intros Hm. apply month_cases in Hm.
  repeat (destruct Hm as [->|Hm]; [by vm_compute|]).
  subst m. by vm_compute.
Qed.

Lemma hour12_range (h : Z) : (0 <= h <= 23)%Z -> (1 <= hour12 h <= 12)%Z.
Proof.
  intros Hh. unfold hour12. pose proof (Z.mod_pos_bound h 12 ltac:(lia)).
  destruct (Z.eqb_spec (h mod 12) 0); lia.
Qed.

Lemma parse_am_pm_written (h : Z) :
  skip_spaces (String " " (am_pm h)) = Some (am_pm h)
  /\ exists pm, parse_am_pm (am_pm h) = Some (pm, EmptyString).
Proof.
  unfold am_pm. destruct (h <? 12)%Z; (split; [done|]); by eexists.
Qed.

(** The text that [save_memory] stores under [cooked_at] parses under the
    format of [analytics_data], to the weekday of the moment it was
    written. *)
Lemma strptime_strftime (now : DateTime) :
  valid_datetime now ->
  strptime_weekday (strftime_cooked_at now) = Some (weekday now).
Proof.
  intros (Hy & Hm & Hd & Hh & Hmi & Hs).
  assert (dt_day now <= 31)%Z as Hd31.
  { unfold days_in_month in Hd.
    repeat (match type of Hd with
            | context [if ?b then _ else _] => destruct b
            end); lia. }
  pose proof (hour12_range _ Hh) as Hh12.
  destruct (parse_month_name (dt_month now)
              (String " "
                 (String.append (fmt4 (dt_year now))
                    (String "," (String " "
                       (String.append (fmt2 (hour12 (dt_hour now)))
                          (String ":"
                             (String.append (fmt2 (dt_minute now))
                                (String " " (am_pm (dt_hour now)))))))))) Hm)
    as [Hskip_month Hmonth].
  destruct (parse_am_pm_written (dt_hour now)) as [Hskip_p [pm Hp]].
  unfold strptime_weekday, strftime_cooked_at, parse_day.
  rewrite two_digits_fmt2 by lia. cbn [mbind option_bind].
  rewrite Hskip_month. cbn [mbind option_bind].
  rewrite Hmonth. cbn [mbind option_bind].
  rewrite skip_spaces_fmt4 by lia. cbn [mbind option_bind].
  rewrite parse_year_fmt4 by lia. cbn [mbind option_bind expect_char].
  change (Ascii.eqb "," ",") with true. cbn [mbind option_bind].
  rewrite skip_spaces_fmt2 by lia. cbn [mbind option_bind].
  rewrite two_digits_fmt2 by lia. cbn [mbind option_bind expect_char].
  change (Ascii.eqb ":" ":") with true. cbn [mbind option_bind].
  rewrite two_digits_fmt2 by lia. cbn [mbind option_bind].
  rewrite Hskip_p. cbn [mbind option_bind].
  rewrite Hp. cbn [mbind option_bind].
  destruct (Z.leb_spec 1 (dt_year now)); [|lia].
  destruct (Z.leb_spec (dt_day now)
              (days_in_month (dt_year now) (dt_month now))); [|lia].
  reflexivity.
Qed.

(** ** More on the ranked mode *)

Lemma find_all_possible_recipes_user_set db u u' :
  list_to_set (normalize_ingredients u)
  =@{gset string} list_to_set (normalize_ingredients u') ->
  find_all_possible_recipes db u = find_all_possible_recipes db u'.
Proof.
  intros H. rewrite !find_all_possible_recipes_sorted_matches. by rewrite H.
Qed.

Lemma normalize_one_lower (raw : string) :
  normalize_one (lower raw) = normalize_one raw.
Proof. unfold normalize_one. by rewrite lower_idemp. Qed.

Lemma normalize_one_strip (raw : string) :
  normalize_one (strip raw) = normalize_one raw.
Proof.
  unfold normalize_one. by rewrite lower_strip, strip_idemp.
Qed.

Lemma sorted_by_missing_count (l : list Match) :
  StronglySorted (fun a b => key_le (sort_key a) (sort_key b)) l ->
  Forall (fun c => match_missing_count c <= 1) l ->
  exists complete one_missing,
    l = complete ++ one_missing
    /\ Forall (fun c => match_missing_count c = 0) complete
    /\ Forall (fun c => match_missing_count c = 1) one_missing.
Proof.
  induction 1 as [|x l Hsorted IH Hall]; intros Hle.
  - exists [], []. by repeat split.
  - apply Forall_cons in Hle as [Hx Hle].
    destruct (match_missing_count x) as [|k] eqn:Ex.
    + destruct (IH Hle) as (l0 & l1 & -> & H0 & H1).
      exists (x :: l0), l1. repeat split; [|done]. by constructor.
    + exists [], (x :: l). repeat split; [done|].
      constructor; [lia|].
      apply Forall_forall. intros y Hy.
      pose proof (proj1 (Forall_forall _ _) Hall y Hy) as Hkey.
      pose proof (proj1 (Forall_forall _ _) Hle y Hy) as Hy1.
      unfold sort_key, key_le in Hkey. simpl in *. lia.
Qed.

(** X1.  In whole numbers the test of [find_all_possible_recipes] reads: a
    recipe is suggested exactly when it has at least one ingredient and
    misses none, or has at least three ingredients and misses exactly one.
    Recipes of one or two ingredients are never suggested with an ingredient
    missing. *)
Theorem find_all_possible_recipes_by_counts
    (db : list Recipe) (u : list string) (c : Match) :
  let user_set : gset string := list_to_set (normalize_ingredients u) in
  c ∈ find_all_possible_recipes db u <->
  exists r,
    r ∈ db /\ c = match_entry user_set r
    /\ ((1 <= size (recipe_set_of r)
         /\ size (recipe_set_of r ∖ user_set) = 0)
        \/ (3 <= size (recipe_set_of r)
            /\ size (recipe_set_of r ∖ user_set) = 1)).
Proof.
  intros user_set. rewrite elem_of_find_all_possible_recipes. fold user_set.
  split; intros (r & Hr & H1 & H2); exists r.
  - split; [done|]. split; [done|]. by apply inclusion_rule_sizes.
  - split; [done|]. split; [|done]. by apply inclusion_rule_sizes.
Qed.

(** X2.  Every suggestion is consistent with itself: [missing_count] is
    the length of [missing] and is at most 1, [missing] has no duplicates,
    none of its tokens is among the normalised ingredients of the user, and
    [difficulty_rank] is at most 3. *)
Theorem find_all_possible_recipes_entries
    (db : list Recipe) (u : list string) (c : Match) :
  c ∈ find_all_possible_recipes db u ->
  match_missing_count c = length (match_missing c)
  /\ match_missing_count c <= 1
  /\ NoDup (match_missing c)
  /\ (forall t, t ∈ match_missing c -> t ∉ normalize_ingredients u)
  /\ match_difficulty_rank c <= 3.
Proof.
  intros Hc.
  apply elem_of_find_all_possible_recipes in Hc as (r & Hr & Hrule & ->).
  simpl. split; [done|]. split; [apply Hrule|].
  split; [apply NoDup_elements|]. split.
  - intros t Ht Hu. apply elem_of_elements, elem_of_difference in Ht as [_ Ht].
    apply Ht. by apply elem_of_list_to_set.
  - unfold difficulty_rank_get, difficulty_rank.
    destruct (recipe_difficulty r) as [d|]; [|lia].
    destruct (decide (d = "Easy")) as [->|?]; [by vm_compute; lia|].
    destruct (decide (d = "Medium")) as [->|?]; [by vm_compute; lia|].
    destruct (decide (d = "Hard")) as [->|?]; [by vm_compute; lia|].
    fold difficulty_rank. fold (difficulty_rank_get (Some d)).
    by rewrite difficulty_rank_get_other.
Qed.

Lemma find_all_possible_recipes_entries_witness :
  match_missing_count (match_entry (list_to_set ["rice"; "salt"]) dish_C)
  = length (match_missing (match_entry (list_to_set ["rice"; "salt"]) dish_C)).
Proof.
  apply (find_all_possible_recipes_entries [dish_E; dish_C] ["Rice"; "Salt"]).
  by vm_compute; set_solver.
Defined.

(** X3.  The ranked list is the recipes that miss nothing followed by the
    recipes that miss one ingredient: a complete match is never listed below
    an incomplete one, whatever the difficulties and times. *)
Theorem find_all_possible_recipes_complete_first
    (db : list Recipe) (u : list string) :
  exists complete one_missing,
    find_all_possible_recipes db u = complete ++ one_missing
    /\ Forall (fun c => match_missing_count c = 0) complete
    /\ Forall (fun c => match_missing_count c = 1) one_missing.
Proof.
  apply sorted_by_missing_count.
  - rewrite find_all_possible_recipes_sorted_matches.
    eapply StronglySorted_weaken;
      [|apply (list_sort_sorted sort_key key_lt key_lt_asym key_le_trans)].
    intros a b Hab. by apply key_lt_false_iff.
  - apply Forall_forall. intros c Hc.
    apply elem_of_find_all_possible_recipes in Hc as (r & Hr & Hrule & ->).
    apply Hrule.
Qed.

(** X4.  [find_all_possible_recipes] normalises its argument itself, so the
    result is the same for raw and for already normalised ingredients, for
    any order of the ingredients, and for any letter case and surrounding
    whitespace of each one. *)
Theorem find_all_possible_recipes_input_form
    (db : list Recipe) (u : list string) :
  find_all_possible_recipes db (normalize_ingredients u)
  = find_all_possible_recipes db u
  /\ (forall u', u ≡ₚ u' ->
        find_all_possible_recipes db u' = find_all_possible_recipes db u)
  /\ find_all_possible_recipes db (lower <$> u)
     = find_all_possible_recipes db u
  /\ find_all_possible_recipes db (strip <$> u)
     = find_all_possible_recipes db u.
Proof.
  split; [|split; [|split]].
  - apply find_all_possible_recipes_user_set, normalize_ingredients_idemp_set.
  - intros u' Hperm. apply find_all_possible_recipes_user_set.
    rewrite !normalize_ingredients_set.
    apply set_eq. intros t. rewrite !elem_of_list_to_set. by rewrite Hperm.
  - apply find_all_possible_recipes_user_set.
    rewrite !normalize_ingredients_set, <- list_fmap_compose.
    f_equal. apply list_fmap_ext. intros i x _. apply normalize_one_lower.
  - apply find_all_possible_recipes_user_set.
    rewrite !normalize_ingredients_set, <- list_fmap_compose.
    f_equal. apply list_fmap_ext. intros i x _. apply normalize_one_strip.
Qed.

Lemma find_all_possible_recipes_input_form_witness :
  find_all_possible_recipes [dish_C; dish_A] ["Salt"; " RICE "]
  = find_all_possible_recipes [dish_C; dish_A] [" RICE "; "Salt"].
Proof.
  apply (proj1 (proj2 (find_all_possible_recipes_input_form
                         [dish_C; dish_A] [" RICE "; "Salt"]))).
  apply perm_swap.
Defined.

(** X5.  When at least one recipe passes the test, [get_dish_options]
    answers with the ranked suggestions only: one dish per passing recipe,
    [count] being their number, and the generated stir fry is not among
    them.  The stir fry is in the answer exactly when no recipe passes. *)
Theorem get_dish_options_matches (db : list Recipe) (data : RequestData) :
  let raw := default [] (data_ingredients data) in
  let user_set : gset string := list_to_set (normalize_ingredients raw) in
  let passing := filter (fun r => qualifies user_set r = true) db in
  (passing <> [] ->
   options_dishes (get_dish_options db data)
   = DishMatch <$> find_all_possible_recipes db raw
   /\ options_count (get_dish_options db data) = length passing)
  /\ (DishGenerated quick_kitchen_stir_fry
        ∈ options_dishes (get_dish_options db data)
      <-> passing = []).
Proof.
  intros raw user_set passing.
  assert (Hsame : find_all_possible_recipes db (normalize_ingredients raw)
                  = find_all_possible_recipes db raw).
  { apply find_all_possible_recipes_user_set, normalize_ingredients_idemp_set. }
  assert (Hperm : find_all_possible_recipes db raw
                  ≡ₚ match_entry user_set <$> passing).
  { rewrite find_all_possible_recipes_sorted_matches.
    rewrite (list_sort_perm sort_key key_lt).
    unfold matches_in_catalogue_order. by rewrite matches_loop. }
  unfold get_dish_options. fold raw. rewrite Hsame.
  destruct (find_all_possible_recipes db raw) as [|c l] eqn:E.
  - apply Permutation_nil_l in Hperm. symmetry in Hperm.
    apply fmap_nil_inv in Hperm.
    split; [done|]. simpl. split; [done|]. intros _. apply list_elem_of_here.
  - assert (passing <> []) as Hne.
    { intros Hnil. rewrite Hnil in Hperm. by apply Permutation_nil_r in Hperm. }
    split.
    + intros _. simpl. split; [done|].
      apply Permutation_length in Hperm. rewrite length_fmap in Hperm.
      simpl in Hperm. rewrite length_fmap. done.
    + simpl. split; [|done]. intros Hin.
      apply elem_of_cons in Hin as [Hin|Hin]; [done|].
      apply list_elem_of_fmap in Hin as (? & ? & _). done.
Qed.

Lemma get_dish_options_matches_witness :
  options_count
    (get_dish_options [dish_C; dish_A; dish_E]
       {| data_ingredients := Some ["rice"; "salt"];
          data_selected_dish := None |})
  = 2.
Proof.
  apply (proj1 (get_dish_options_matches [dish_C; dish_A; dish_E]
    {| data_ingredients := Some ["rice"; "salt"];
       data_selected_dish := None |})).
  by vm_compute.
Defined.

(** ** More on recipe assembly *)

Lemma find_first {A : Type} (f : A -> bool) (before after : list A) (x : A) :
  (forall y, y ∈ before -> f y = false) -> f x = true ->
  List.find f (before ++ x :: after) = Some x.
Proof.
  intros Hbefore Hx. induction before as [|y before IH]; simpl.
  - by rewrite Hx.
  - rewrite (Hbefore y) by apply list_elem_of_here.
    apply IH. intros z Hz. apply Hbefore. by apply list_elem_of_further.
Qed.

Lemma name_matches_key (s s' : string) (r : Recipe) :
  lower (strip s) = lower (strip s') -> name_matches s r = name_matches s' r.
Proof. unfold name_matches. by intros ->. Qed.

Lemma score_of_no_ingredients (r : Recipe) : score_of [] r = 0.
Proof.
  unfold score_of. simpl.
  replace (recipe_set_of r ∩ ∅) with (∅ : gset string); [done|].
  apply set_eq. intros x. rewrite elem_of_intersection, elem_of_empty. tauto.
Qed.

(** X6.  A non-empty dish name selects the first catalogue recipe whose
    name equals it after trimming and lowercasing, and the response is
    assembled from that recipe alone: the ingredients of the request play no
    part.  If that recipe is a dictionary without any key, the response is
    the "Custom Dish" instead. *)
Theorem generate_recipe_by_name
    (db before after : list Recipe) (r : Recipe) (data : RequestData)
    (selected_dish : string) :
  data_selected_dish data = Some selected_dish ->
  selected_dish <> "" ->
  db = before ++ r :: after ->
  (forall r', r' ∈ before -> name_matches selected_dish r' = false) ->
  name_matches selected_dish r = true ->
  (recipe_is_falsy (Some r) = false ->
   generate_recipe db data
   = {| resp_name := recipe_name r;
        resp_ingredients := recipe_ingredients r;
        resp_calories := recipe_calories r;
        resp_difficulty := recipe_difficulty r;
        resp_steps := project_steps (default [] (recipe_steps r));
        resp_total_time :=
          sum_times (project_steps (default [] (recipe_steps r))) |})
  /\ (recipe_is_falsy (Some r) = true ->
      resp_name (generate_recipe db data) = Some "Custom Dish").
Proof.
  intros Hsel Hne -> Hbefore Hr.
  assert (select_recipe (before ++ r :: after) (Some selected_dish)
            (normalize_ingredients (default [] (data_ingredients data)))
          = Some r) as Hfound.
  { destruct selected_dish; [done|]. simpl. by apply find_first. }
  unfold generate_recipe, resolve_recipe. rewrite Hsel, Hfound.
  split; intros ->; done.
Qed.

Lemma generate_recipe_by_name_witness :
  resp_name
    (generate_recipe [salted_rice; rice_pudding]
       {| data_ingredients := Some ["salt"];
          data_selected_dish := Some "  rice PUDDING" |})
  = Some "Rice Pudding".
Proof.
  rewrite (proj1 (generate_recipe_by_name
             [salted_rice; rice_pudding] [salted_rice] [] rice_pudding
             {| data_ingredients := Some ["salt"];
                data_selected_dish := Some "  rice PUDDING" |}
             "  rice PUDDING" eq_refl ltac:(discriminate) eq_refl
             ltac:(intros r' Hr'; apply list_elem_of_singleton in Hr' as ->;
                   by vm_compute)
             eq_refl) eq_refl).
  reflexivity.
Defined.

(** X7.  The dish name of a request is compared without regard to letter
    case and to surrounding whitespace: two non-empty names that agree after
    trimming and lowercasing give the same response. *)
Theorem generate_recipe_name_spelling
    (db : list Recipe) (ingredients : option (list string))
    (name name' : string) :
  name <> "" -> name' <> "" ->
  lower (strip name) = lower (strip name') ->
  generate_recipe db
    {| data_ingredients := ingredients; data_selected_dish := Some name |}
  = generate_recipe db
      {| data_ingredients := ingredients; data_selected_dish := Some name' |}.
Proof.
  intros Hn Hn' Hkey.
  assert (forall ings,
            select_recipe db (Some name) ings = select_recipe db (Some name') ings)
    as Hselect.
  { intros ings. destruct name; [done|]. destruct name'; [done|]. simpl.
    induction db as [|r db IH]; simpl; [done|].
    rewrite (name_matches_key _ _ r Hkey). by rewrite IH. }
  unfold generate_recipe, resolve_recipe.
  cbn [data_selected_dish data_ingredients]. by rewrite Hselect.
Qed.

Lemma generate_recipe_name_spelling_witness :
  generate_recipe [salted_rice; rice_pudding]
    {| data_ingredients := None; data_selected_dish := Some " Salted RICE " |}
  = generate_recipe [salted_rice; rice_pudding]
      {| data_ingredients := None; data_selected_dish := Some "salted rice" |}.
Proof.
  apply generate_recipe_name_spelling; [discriminate|discriminate|].
  by vm_compute.
Defined.

(** X8.  Without a dish name (none, or the empty string), a request whose
    normalised ingredients occur in no catalogue recipe is answered with the
    "Custom Dish" built from those ingredients; a request without any
    ingredient always is, with an empty ingredient list. *)
Theorem generate_recipe_nothing_in_common
    (db : list Recipe) (data : RequestData) :
  let ingredients :=
    normalize_ingredients (default [] (data_ingredients data)) in
  let custom :=
    {| resp_name := Some "Custom Dish";
       resp_ingredients := Some ingredients;
       resp_calories := Some 220%Z;
       resp_difficulty := Some "Easy";
       resp_steps :=
         [ {| step_description := Some "Cook everything well";
              step_time := 10 |} ];
       resp_total_time := 10 |} in
  (data_selected_dish data = None \/ data_selected_dish data = Some "") ->
  (Forall (fun r => score_of ingredients r = 0) db ->
   generate_recipe db data = custom)
  /\ (default [] (data_ingredients data) = [] ->
      generate_recipe db data = custom /\ ingredients = []).
Proof.
  intros ingredients custom Hsel.
  assert (Hzero : Forall (fun r => score_of ingredients r = 0) db ->
                  generate_recipe db data = custom).
  { intros Hall. unfold generate_recipe, resolve_recipe. fold ingredients.
    assert (select_recipe db (data_selected_dish data) ingredients = None) as ->.
    { destruct Hsel as [-> | ->]; simpl; by apply find_best_recipe_None. }
    done. }
  split; [done|]. intros Hempty.
  assert (ingredients = []) as Hnil.
  { subst ingredients. by rewrite Hempty. }
  split; [|done]. apply Hzero. rewrite Hnil.
  apply Forall_forall. intros r _. apply score_of_no_ingredients.
Qed.

Lemma generate_recipe_nothing_in_common_witness :
  generate_recipe [salted_rice; rice_pudding]
    {| data_ingredients := None; data_selected_dish := Some "" |}
  = {| resp_name := Some "Custom Dish";
       resp_ingredients := Some [];
       resp_calories := Some 220%Z;
       resp_difficulty := Some "Easy";
       resp_steps :=
         [ {| step_description := Some "Cook everything well";
              step_time := 10 |} ];
       resp_total_time := 10 |}.
Proof.
  apply (proj2 (generate_recipe_nothing_in_common [salted_rice; rice_pudding]
                  {| data_ingredients := None; data_selected_dish := Some "" |}
                  (or_intror eq_refl)) eq_refl).
Defined.

(** ** More on normalisation *)

(** Every value of the synonym table is lowercase, trimmed, and no key. *)
Lemma INGREDIENT_MAP_values_canonical (k v : string) :
  INGREDIENT_MAP !! k = Some v ->
  lower v = v /\ strip v = v /\ INGREDIENT_MAP !! v = None.
Proof.
  intros H. apply elem_of_list_to_map_2 in H.
  repeat (apply elem_of_cons in H as [H|H]; [by inversion H|]).
  by apply elem_of_nil in H.
Qed.

(** X9.  Every token returned by [normalize_ingredients] is canonical: it
    has no uppercase letter and no surrounding whitespace, it is not a key
    of the synonym table (so no synonym survives normalisation), and
    normalising it again leaves it as it is. *)
Theorem normalize_ingredients_canonical (x : list string) (t : string) :
  t ∈ normalize_ingredients x ->
  lower t = t /\ strip t = t /\ INGREDIENT_MAP !! t = None
  /\ normalize_ingredients [t] = [t].
Proof.
  intros Ht. apply elem_of_normalize_ingredients in Ht as (raw & _ & ->).
  assert (Hcanon : lower (normalize_one raw) = normalize_one raw
                   /\ strip (normalize_one raw) = normalize_one raw
                   /\ INGREDIENT_MAP !! normalize_one raw = None).
  { assert (Hraw : normalize_one raw
                   = default (strip (lower raw))
                       (INGREDIENT_MAP !! strip (lower raw))) by done.
    rewrite Hraw.
    destruct (INGREDIENT_MAP !! strip (lower raw)) as [v|] eqn:E; simpl.
    - by eapply INGREDIENT_MAP_values_canonical.
    - rewrite lower_strip, lower_idemp, strip_idemp. done. }
  destruct Hcanon as (Hl & Hs & Hm). repeat split; [done|done|done|].
  unfold normalize_ingredients. simpl. rewrite normalize_one_idemp.
  rewrite union_empty_r_L. apply elements_singleton.
Qed.

Lemma normalize_ingredients_canonical_witness :
  INGREDIENT_MAP !! "coriander" = None.
Proof.
  apply (normalize_ingredients_canonical [" Cilantro"; "SALT"] "coriander").
  by vm_compute; set_solver.
Defined.

(** X10.  Normalisation never yields more tokens than it was given raw
    entries, and it yields none exactly for the empty list. *)
Theorem normalize_ingredients_length (x : list string) :
  length (normalize_ingredients x) <= length x
  /\ (normalize_ingredients x = [] <-> x = []).
Proof.
  split.
  - replace (length x) with (length (normalize_one <$> x))
      by apply length_fmap.
    apply submseteq_length, NoDup_submseteq.
    + unfold normalize_ingredients. apply NoDup_elements.
    + intros t Ht. apply elem_of_normalize_ingredients in Ht as (raw & Hraw & ->).
      apply list_elem_of_fmap. by exists raw.
  - split; [|by intros ->].
    destruct x as [|raw x]; [done|]. intros Hnil.
    assert (normalize_one raw ∈ normalize_ingredients (raw :: x)) as Hin.
    { apply elem_of_normalize_ingredients. exists raw.
      split; [apply list_elem_of_here|done]. }
    rewrite Hnil in Hin. by apply elem_of_nil in Hin.
Qed.

(** ** Memories: listing, deleting, logging out *)

Lemma delete_out_of_range {A : Type} (l : list A) (k : nat) :
  length l <= k -> delete k l = l.
Proof.
  intros Hk. rewrite delete_take_drop, take_ge, drop_ge by lia.
  apply app_nil_r.
Qed.

Lemma rev_delete {A : Type} (l : list A) (k : nat) :
  k < length l -> rev (delete k l) = delete (length l - 1 - k) (rev l).
Proof.
  intros Hk.
  destruct (delete_position l k Hk) as (before & x & after & -> & <- & ->).
  rewrite !rev_app_distr. simpl. rewrite <- app_assoc. simpl.
  replace (length (before ++ x :: after) - 1 - length before)
    with (length (rev after)).
  - by rewrite delete_middle.
  - rewrite length_rev, length_app. simpl. lia.
Qed.

(** X11.  The index of [delete_memory] counts from the newest memory: on
    the list read newest first (the reverse of what [get_memories] returns)
    a request with a non-negative index deletes exactly the position it
    names, and does nothing when the list is shorter; a negative index
    changes nothing.  The list shrinks by one exactly for an index in
    range. *)
Theorem delete_memory_newest_first_view
    (session : Session) (uid : nat) (index : Z) :
  session_user_id session = Some uid ->
  let after := get_memories (fst (delete_memory session index)) in
  let before := get_memories session in
  ((0 <= index)%Z -> rev after = delete (Z.to_nat index) (rev before))
  /\ ((index < 0)%Z -> after = before)
  /\ length after
     = if bool_decide (0 <= index < Z.of_nat (length before))%Z
       then length before - 1 else length before.
Proof.
  intros Huid. unfold delete_memory, get_memories. rewrite Huid. simpl.
  set (memories := default [] (session_memories session)).
  destruct (Z.leb_spec 0 index) as [Hpos|Hneg]; simpl.
  - destruct (Z.ltb_spec index (Z.of_nat (length memories))) as [Hlt|Hge].
    + split; [|split; [lia|]].
      * intros _. rewrite rev_delete by lia. f_equal. lia.
      * rewrite bool_decide_true by lia.
        rewrite length_delete; [lia|]. apply lookup_lt_is_Some_2. lia.
    + split; [|split; [lia|]].
      * intros _. rewrite delete_out_of_range; [done|]. rewrite length_rev. lia.
      * by rewrite bool_decide_false by lia.
  - split; [lia|]. split; [done|]. by rewrite bool_decide_false by lia.
Qed.

Lemma delete_memory_newest_first_view_witness :
  rev (get_memories (fst (delete_memory (session_with [m0; m1; m2]) 1)))
  = delete 1 (rev (get_memories (session_with [m0; m1; m2]))).
Proof.
  apply (proj1 (delete_memory_newest_first_view
                  (session_with [m0; m1; m2]) 7 1 eq_refl)).
  lia.
Defined.

(** X12.  Logging out clears the whole session, memories included: after
    it the list of memories is empty, the analytics are the all-zero
    summary, and requests to delete or to save are answered [Unauthorized]
    and change nothing. *)
Theorem logout_forgets_memories
    (json_loads : string -> result JValue) (secure_filename : string -> string)
    (session : Session) (index : Z) (form : MemoryForm)
    (image_filename : option string) (now_stamp now_cooked : DateTime) :
  let cleared := logout session in
  get_memories cleared = []
  /\ analytics_data cleared
     = Ok {| totalCalories := 0;
             totalRecipes := 0;
             topIngredient := JStr "-";
             weeklyCalories := [0; 0; 0; 0; 0; 0; 0]%Z;
             ingredientLabels := [];
             ingredientCounts := [] |}
  /\ delete_memory cleared index = (cleared, Unauthorized)
  /\ save_memory json_loads secure_filename cleared form image_filename
       now_stamp now_cooked
     = Ok {| save_session := cleared;
             save_response := SaveUnauthorized;
             save_file := None |}.
Proof. by repeat split. Qed.

(** ** Saving a memory *)

Section SaveMemoryFacts.
Variable json_loads : string -> result JValue.
Variable secure_filename : string -> string.

(** What a request that answers [Saved] has done. *)
Lemma save_memory_saved session form image_filename now_stamp now_cooked o :
  save_memory json_loads secure_filename session form image_filename
    now_stamp now_cooked = Ok o ->
  save_response o = Saved ->
  exists uid ingredients filename,
    session_user_id session = Some uid
    /\ stored_ingredients json_loads form = Ok ingredients
    /\ image_filename = Some filename /\ filename <> ""
    /\ o = {| save_session :=
                {| session_user_id := Some uid;
                   session_memories :=
                     Some (default [] (session_memories session) ++
                           [new_memory secure_filename form ingredients
                              filename now_stamp now_cooked]) |};
              save_response := Saved;
              save_file := Some (upload_path secure_filename filename now_stamp) |}.
Proof.
  unfold save_memory. destruct (session_user_id session) as [uid|] eqn:Huid.
  - destruct (stored_ingredients json_loads form) as [ingredients|e]; simpl;
      [|done].
    destruct image_filename as [[|c filename]|]; intros [= <-]; simpl; try done.
    intros _. by exists uid, ingredients, (String c filename).
  - by intros [= <-].
Qed.

(** X13.  The checks of [save_memory] come in this order: a request
    without login is refused and changes nothing, even with malformed
    [ingredients]; with login, non-empty [ingredients] text that does not
    decode raises, even when no image was sent; then a missing image or an
    empty file name is refused and changes nothing.  A request that is
    answered [Saved] keeps the login, appends exactly one memory after the
    existing ones, holding the form texts, the decoded ingredients and the
    formatted time, and writes one file whose path, after a slash, is the
    stored image address. *)
Theorem save_memory_cases
    (session : Session) (form : MemoryForm) (image_filename : option string)
    (now_stamp now_cooked : DateTime) :
  let outcome :=
    save_memory json_loads secure_filename session form image_filename
      now_stamp now_cooked in
  (session_user_id session = None ->
   outcome = Ok {| save_session := session;
                   save_response := SaveUnauthorized;
                   save_file := None |})
  /\ (forall uid text e,
        session_user_id session = Some uid ->
        form_ingredients form = Some text -> text <> "" ->
        json_loads text = Raise e ->
        outcome = Raise e)
  /\ (forall uid ingredients,
        session_user_id session = Some uid ->
        stored_ingredients json_loads form = Ok ingredients ->
        image_filename = None \/ image_filename = Some "" ->
        outcome = Ok {| save_session := session;
                        save_response := ImageRequired;
                        save_file := None |})
  /\ (forall o,
        outcome = Ok o -> save_response o = Saved ->
        exists filename m,
          image_filename = Some filename /\ filename <> ""
          /\ session_user_id (save_session o) = session_user_id session
          /\ get_memories (save_session o) = get_memories session ++ [m]
          /\ mem_name m = Some (form_value (form_name form))
          /\ mem_calories m = Some (form_value (form_calories form))
          /\ mem_note m = Some (form_value (form_note form))
          /\ Ok <$> mem_ingredients m = Some (stored_ingredients json_loads form)
          /\ mem_cooked_at m = Some (JStr (strftime_cooked_at now_cooked))
          /\ save_file o
             = Some (String.append "static/uploads/"
                       (String.append (strftime_stamp now_stamp)
                          (String "_" (secure_filename filename))))
          /\ (fun path => JStr (String "/" path)) <$> save_file o
             = mem_image m).
Proof.
  intros outcome. split; [|split; [|split]].
  - intros Huid. subst outcome. unfold save_memory. by rewrite Huid.
  - intros uid text e Huid Htext Hne Hraise. subst outcome.
    unfold save_memory, stored_ingredients. rewrite Huid, Htext. simpl.
    destruct (String.eqb_spec text ""); [done|]. simpl. by rewrite Hraise.
  - intros uid ingredients Huid Hing Himage. subst outcome.
    unfold save_memory. rewrite Huid, Hing. simpl.
    by destruct Himage as [-> | ->].
  - intros o Ho Hsaved.
    destruct (save_memory_saved _ _ _ _ _ _ Ho Hsaved)
      as (uid & ingredients & filename & Huid & Hing & -> & Hne & ->).
    exists filename, (new_memory secure_filename form ingredients filename
                        now_stamp now_cooked).
    unfold get_memories. rewrite Huid, Hing. simpl. by repeat split.
Qed.

Lemma delete_newest_appended (memories : list Memory) (m : Memory) (uid : nat) :
  delete_memory
    {| session_user_id := Some uid;
       session_memories := Some (memories ++ [m]) |} 0
  = ({| session_user_id := Some uid; session_memories := Some memories |},
     Deleted).
Proof.
  unfold delete_memory. simpl. rewrite length_app. simpl.
  destruct (Z.ltb_spec 0 (Z.of_nat (length memories + 1))); [|lia]. simpl.
  replace (Z.to_nat (Z.of_nat (length memories + 1) - 1 - 0))
    with (length memories) by lia.
  by rewrite delete_middle, app_nil_r.
Qed.

(** X14.  Saving and then deleting index 0 is a round trip: the memory
    just saved is the one that index 0 names, and after the deletion the
    list of memories is what it was before the save. *)
Theorem save_then_delete_newest
    (session : Session) (form : MemoryForm) (image_filename : option string)
    (now_stamp now_cooked : DateTime) (o : SaveOutcome) :
  save_memory json_loads secure_filename session form image_filename
    now_stamp now_cooked = Ok o ->
  save_response o = Saved ->
  get_memories (fst (delete_memory (save_session o) 0)) = get_memories session
  /\ snd (delete_memory (save_session o) 0) = Deleted.
Proof.
  intros Ho Hsaved.
  destruct (save_memory_saved _ _ _ _ _ _ Ho Hsaved)
    as (uid & ingredients & filename & Huid & Hing & -> & Hne & ->).
  cbn [save_session]. rewrite delete_newest_appended.
  unfold get_memories. simpl. by rewrite Huid.
Qed.
Lemma for_each_app {S A : Type} (body : S -> A -> result S)
    (l1 l2 : list A) (s : S) :
  for_each body (l1 ++ l2) s = s' ← for_each body l1 s; for_each body l2 s'.
Proof.
  revert s. induction l1 as [|a l1 IH]; intros s; simpl; [done|].
  destruct (body s a); simpl; [apply IH|done].
Qed.

Lemma analytics_data_for_each (session : Session) :
  analytics_data session
  = st ← for_each analytics_step (default [] (session_memories session))
           initial_state;
    Ok (summary_of st (length (default [] (session_memories session)))).
Proof. unfold analytics_data. by destruct (session_memories session). Qed.

Lemma strftime_cooked_at_nonempty (now : DateTime) :
  strftime_cooked_at now <> "".
Proof. unfold strftime_cooked_at, fmt2. by rewrite append_String. Qed.

Lemma new_memory_dated form ingredients filename now_stamp now_cooked :
  valid_datetime now_cooked ->
  timestamp_parses
    (new_memory secure_filename form ingredients filename now_stamp now_cooked)
  /\ bucket_of
       (new_memory secure_filename form ingredients filename now_stamp now_cooked)
     = Some (weekday now_cooked).
Proof.
  intros Hvalid. split.
  - exists (strftime_cooked_at now_cooked), (weekday now_cooked).
    split; [done|]. split; [apply strftime_cooked_at_nonempty|].
    by apply strptime_strftime.
  - unfold bucket_of, cooked_at_value. simpl. by apply strptime_strftime.
Qed.

Lemma new_memory_calories form ingredients filename now_stamp now_cooked :
  coerce_calories
    (new_memory secure_filename form ingredients filename now_stamp now_cooked)
  = form_calories_value form.
Proof.
  unfold coerce_calories, form_calories_value. simpl.
  destruct (form_calories form) as [text|]; simpl; [|done].
  by destruct (int_of_str text).
Qed.

(** The analytics of the session that a [Saved] request leaves: the loop
    over the earlier memories, one more iteration, and one more recipe. *)
Lemma analytics_after_save session form image_filename now_stamp now_cooked o :
  save_memory json_loads secure_filename session form image_filename
    now_stamp now_cooked = Ok o ->
  save_response o = Saved ->
  exists ingredients filename,
    stored_ingredients json_loads form = Ok ingredients
    /\ analytics_data (save_session o)
       = st ← for_each analytics_step (default [] (session_memories session))
                initial_state;
         st' ← analytics_step st
                 (new_memory secure_filename form ingredients filename
                    now_stamp now_cooked);
         Ok (summary_of st'
               (S (length (default [] (session_memories session))))).
Proof.
  intros Ho Hsaved.
  destruct (save_memory_saved _ _ _ _ _ _ Ho Hsaved)
    as (uid & ingredients & filename & Huid & Hing & -> & Hne & ->).
  exists ingredients, filename. split; [done|].
  rewrite analytics_data_for_each.
  cbn [save_session session_memories default from_option id].
  rewrite for_each_app, length_app. cbn [length].
  replace (length (default [] (session_memories session)) + 1)
    with (S (length (default [] (session_memories session)))) by lia.
  destruct (for_each analytics_step (default [] (session_memories session))
              initial_state) as [st|e]; simpl; [|done].
  by destruct (analytics_step st _).
Qed.

(** X15.  A memory that was saved can be aggregated: its timestamp is
    written in the format that [analytics_data] parses.  If the analytics
    worked before a save at a valid date, and the stored ingredients can be
    iterated and yield only entries that can be dictionary keys, they work
    after it: one more recipe, the coerced calories of the form added to the
    total and to the bucket of the weekday of the save, every other bucket
    unchanged. *)
Theorem analytics_after_saved_memory
    (session : Session) (form : MemoryForm) (image_filename : option string)
    (now_stamp now_cooked : DateTime) (o : SaveOutcome)
    (before : AnalyticsSummary) (ingredients : JValue)
    (entries : list JValue) :
  save_memory json_loads secure_filename session form image_filename
    now_stamp now_cooked = Ok o ->
  save_response o = Saved ->
  valid_datetime now_cooked ->
  analytics_data session = Ok before ->
  stored_ingredients json_loads form = Ok ingredients ->
  iterate ingredients = Ok entries ->
  Forall (fun ing => hashable ing = true) entries ->
  exists after,
    analytics_data (save_session o) = Ok after
    /\ totalRecipes after = S (totalRecipes before)
    /\ totalCalories after
       = (totalCalories before + form_calories_value form)%Z
    /\ weeklyCalories after
       = alter (fun w => (w + form_calories_value form)%Z)
               (weekday now_cooked) (weeklyCalories before).
Proof.
  intros Ho Hsaved Hvalid Hbefore Hing Hiter Hhash.
  destruct (analytics_after_save _ _ _ _ _ _ Ho Hsaved)
    as (ingredients' & filename & Hing' & ->).
  rewrite Hing in Hing'. injection Hing' as <-.
  rewrite analytics_data_for_each in Hbefore.
  destruct (for_each analytics_step (default [] (session_memories session))
              initial_state) as [st|e]; simpl in *; [|done].
  injection Hbefore as <-.
  destruct (new_memory_dated form ingredients filename now_stamp now_cooked
              Hvalid) as [Hparses Hbucket].
  destruct (analytics_step_ok st
              (new_memory secure_filename form ingredients filename
                 now_stamp now_cooked))
    as (st' & -> & Htotal & Hweekly).
  { by right. }
  { by exists entries. }
  rewrite Hbucket, new_memory_calories in Hweekly.
  rewrite new_memory_calories in Htotal.
  eexists. split; [reflexivity|]. simpl. by repeat split.
Qed.

End SaveMemoryFacts.

Lemma sample_saved_outcome :
  save_memory json_loads_sample secure_filename_sample (session_with [m0])
    (sample_form (Some "250") (Some "[]")) (Some "dish.png")
    sample_now sample_now
  = Ok sample_saved.
Proof. by vm_compute. Qed.


Lemma sample_now_valid : valid_datetime sample_now.
Proof. unfold valid_datetime. simpl. vm_compute. intuition discriminate. Qed.

Lemma save_memory_cases_witness :
  save_memory json_loads_sample secure_filename_sample (session_with [m0])
    (sample_form (Some "250") (Some "oops")) None sample_now sample_now
  = Raise ValueError
  /\ save_memory json_loads_sample secure_filename_sample (session_with [m0])
       (sample_form (Some "250") (Some "[]")) (Some "") sample_now sample_now
     = Ok {| save_session := session_with [m0];
             save_response := ImageRequired;
             save_file := None |}
  /\ exists filename m,
       Some "dish.png" = Some filename /\ filename <> ""
       /\ session_user_id (save_session sample_saved) = Some 7
       /\ get_memories (save_session sample_saved)
          = get_memories (session_with [m0]) ++ [m]
       /\ mem_name m = Some (JStr "Khichdi")
       /\ mem_calories m = Some (JStr "250")
       /\ mem_note m = Some JNull
       /\ Ok <$> mem_ingredients m = Some (Ok (JList []))
       /\ mem_cooked_at m = Some (JStr "03 Nov 2026, 05:31 PM")
       /\ save_file sample_saved
          = Some (String.append "static/uploads/"
                    (String.append "20261103173109" (String "_" filename)))
       /\ (fun path => JStr (String "/" path)) <$> save_file sample_saved
          = mem_image m.
Proof.
  split; [|split].
  - apply (proj1 (proj2 (save_memory_cases json_loads_sample
                           secure_filename_sample (session_with [m0])
                           (sample_form (Some "250") (Some "oops")) None
                           sample_now sample_now))
             7 "oops" ValueError eq_refl eq_refl);
      [discriminate|reflexivity].
  - apply (proj1 (proj2 (proj2 (save_memory_cases json_loads_sample
                           secure_filename_sample (session_with [m0])
                           (sample_form (Some "250") (Some "[]")) (Some "")
                           sample_now sample_now)))
             7 (JList []) eq_refl eq_refl).
    by right.
  - exact (proj2 (proj2 (proj2 (save_memory_cases json_loads_sample
                           secure_filename_sample (session_with [m0])
                           (sample_form (Some "250") (Some "[]"))
                           (Some "dish.png") sample_now sample_now)))
             sample_saved sample_saved_outcome eq_refl).
Defined.

Lemma save_then_delete_newest_witness :
  get_memories (fst (delete_memory (save_session sample_saved) 0)) = [m0]
  /\ snd (delete_memory (save_session sample_saved) 0) = Deleted.
Proof.
  apply (save_then_delete_newest json_loads_sample secure_filename_sample
           (session_with [m0]) (sample_form (Some "250") (Some "[]"))
           (Some "dish.png") sample_now sample_now sample_saved
           sample_saved_outcome eq_refl).
Defined.

Lemma analytics_after_saved_memory_witness :
  exists after,
    analytics_data (save_session sample_saved) = Ok after
    /\ totalRecipes after = 2
    /\ totalCalories after = (180 + 250)%Z
    /\ weeklyCalories after
       = alter (fun w => (w + 250)%Z) 1 [180; 0; 0; 0; 0; 0; 0]%Z.
Proof.
  apply (analytics_after_saved_memory json_loads_sample secure_filename_sample
           (session_with [m0]) (sample_form (Some "250") (Some "[]"))
           (Some "dish.png") sample_now sample_now sample_saved
           {| totalCalories := 180;
              totalRecipes := 1;
              topIngredient := JStr "lentil";
              weeklyCalories := [180; 0; 0; 0; 0; 0; 0]%Z;
              ingredientLabels := [JStr "lentil"; JStr "onion"];
              ingredientCounts := [1; 1] |}
           (JList []) []
           sample_saved_outcome eq_refl sample_now_valid eq_refl eq_refl eq_refl
           (List.Forall_nil _)).
Defined.


(** ** More on the analytics *)

Lemma strptime_weekday_range (s : string) (d : nat) :
  strptime_weekday s = Some d -> d < 7.
Proof.
  unfold strptime_weekday. intros H.
  repeat (match type of H with
          | mbind _ ?o = _ =>
              destruct o as [?|]; cbn [mbind option_bind] in H; [|discriminate]
          | context [match ?p with (_, _) => _ end] => destruct p
          | context [match ?s with EmptyString => _ | String _ _ => _ end] =>
              destruct s; [|discriminate]
          | context [if ?b then _ else _] => destruct b; [|discriminate]
          end).
  injection H as <-.
  match goal with
  | |- Z.to_nat (?x mod 7) < 7 =>
      pose proof (Z.mod_pos_bound x 7 ltac:(lia)); lia
  end.
Qed.

(** What one iteration that does not raise has done. *)
Lemma analytics_step_inv (st st' : AnalyticsState) (mem : Memory) :
  analytics_step st mem = Ok st' ->
  total_calories st' = (total_calories st + coerce_calories mem)%Z
  /\ ((truthy (cooked_at_value mem) = false
       /\ weekly_calories st' = weekly_calories st)
      \/ (exists weekday,
            weekday < 7 /\ truthy (cooked_at_value mem) = true
            /\ weekly_calories st'
               = alter (fun w => (w + coerce_calories mem)%Z) weekday
                       (weekly_calories st)))
  /\ exists entries,
       iterate (default (JList []) (mem_ingredients mem)) = Ok entries
       /\ Forall (fun ing => hashable ing = true) entries
       /\ ingredient_counter st'
          = fold_left counter_incr entries (ingredient_counter st).
Proof.
  unfold analytics_step. fold (cooked_at_value mem).
  destruct (truthy (cooked_at_value mem)) eqn:Htruthy.
  - unfold cooked_weekday.
    destruct (cooked_at_value mem) as [|b|z|q|s|l|d]; simpl; try done.
    destruct (strptime_weekday s) as [weekday|] eqn:Hparse; simpl; [|done].
    destruct (iterate _) as [entries|e]; simpl; [|done].
    destruct (for_each count_entry entries (ingredient_counter st))
      as [counter|e] eqn:Hcount; simpl; [|done].
    apply count_entries_inv in Hcount as [Hhash ->].
    intros [= <-]. simpl. split; [done|]. split.
    + right. exists weekday. split; [by eapply strptime_weekday_range|done].
    + by exists entries.
  - simpl. destruct (iterate _) as [entries|e]; simpl; [|done].
    destruct (for_each count_entry entries (ingredient_counter st))
      as [counter|e] eqn:Hcount; simpl; [|done].
    apply count_entries_inv in Hcount as [Hhash ->].
    intros [= <-]. simpl. split; [done|]. split; [by left|by exists entries].
Qed.

Lemma sum_Z_alter (l : list Z) (i : nat) (c : Z) :
  i < length l ->
  sum_Z (alter (fun w => (w + c)%Z) i l) = (sum_Z l + c)%Z.
Proof.
  unfold sum_Z. revert i.
  induction l as [|x l IH]; intros i Hi; simpl in *; [lia|].
  destruct i as [|i]; simpl; [lia|].
  pose proof (IH i ltac:(lia)) as IHi. unfold alter in IHi. lia.
Qed.

(** What a loop that does not raise has done. *)
Lemma analytics_loop_inv (memories : list Memory) (st st' : AnalyticsState) :
  for_each analytics_step memories st = Ok st' ->
  length (weekly_calories st) = 7 ->
  total_calories st' = (total_calories st + calories_total memories)%Z
  /\ length (weekly_calories st') = 7
  /\ sum_Z (weekly_calories st')
     = (sum_Z (weekly_calories st) + dated_calories memories)%Z
  /\ Forall (fun ing => hashable ing = true) (all_ingredients memories)
  /\ ingredient_counter st'
     = fold_left counter_incr (all_ingredients memories)
         (ingredient_counter st).
Proof.
  revert st. induction memories as [|mem memories IH]; intros st; simpl.
  - intros [= <-] Hlen. split; [lia|]. split; [done|]. split; [lia|].
    split; [apply List.Forall_nil|done].
  - destruct (analytics_step st mem) as [st1|e] eqn:Hstep; simpl; [|done].
    intros Hloop Hlen.
    apply analytics_step_inv in Hstep
      as (Htotal & Hweekly & entries & Hiter & Hhash & Hcounter).
    assert (length (weekly_calories st1) = 7
            /\ sum_Z (weekly_calories st1)
               = (sum_Z (weekly_calories st)
                  + if truthy (cooked_at_value mem)
                    then coerce_calories mem else 0)%Z) as [Hlen1 Hsum1].
    { destruct Hweekly as [[-> ->]|(weekday & Hday & -> & ->)].
      - split; [done|lia].
      - rewrite length_alter, sum_Z_alter by lia. done. }
    destruct (IH st1 Hloop Hlen1)
      as (Htotal' & Hlen' & Hsum' & Hhash' & Hcounter').
    assert (all_ingredients (mem :: memories)
            = entries ++ all_ingredients memories) as Hentries.
    { unfold all_ingredients. simpl. unfold ingredients_of at 1.
      by rewrite Hiter. }
    split; [lia|]. split; [done|]. split; [|split].
    + rewrite Hsum', Hsum1. destruct (truthy (cooked_at_value mem)); lia.
    + rewrite Hentries. by apply Forall_app.
    + by rewrite Hcounter', Hcounter, Hentries, fold_left_app.
Qed.

Lemma analytics_data_inv (session : Session) (summary : AnalyticsSummary) :
  analytics_data session = Ok summary ->
  exists st,
    for_each analytics_step (default [] (session_memories session))
      initial_state = Ok st
    /\ summary
       = summary_of st (length (default [] (session_memories session))).
Proof.
  rewrite analytics_data_for_each.
  destruct (for_each _ _ _) as [st|e]; simpl; [|done].
  intros [= <-]. by exists st.
Qed.

(** *** Keys *)

Lemma same_key_refl (a : JValue) : hashable a = true -> same_key a a = true.
Proof.
  destruct a; unfold same_key; cbn [numeric hashable]; try done; intros _;
    first [apply Qeq_bool_refl | apply String.eqb_refl].
Qed.

Lemma same_key_sym (a b : JValue) : same_key a b = same_key b a.
Proof.
  destruct a, b; unfold same_key; cbn [numeric]; try done;
    first [ apply Bool.eq_true_iff_eq; split; apply Qeq_bool_sym
          | apply String.eqb_sym ].
Qed.

Lemma same_key_trans (a b c : JValue) :
  same_key a b = true -> same_key b c = true -> same_key a c = true.
Proof.
  destruct a, b, c; unfold same_key; cbn [numeric]; try done;
    first [ apply Qeq_bool_trans
          | rewrite !String.eqb_eq; congruence ].
Qed.

Lemma same_key_cong (a b c : JValue) :
  same_key a b = true -> same_key a c = same_key b c.
Proof.
  intros Hab. destruct (same_key b c) eqn:Hbc.
  - by eapply same_key_trans.
  - destruct (same_key a c) eqn:Hac; [|done].
    rewrite <- Hbc. symmetry. eapply same_key_trans; [|done].
    by rewrite same_key_sym.
Qed.

Lemma same_key_text (s : string) (b : JValue) :
  same_key (JStr s) b = true <-> b = JStr s.
Proof.
  destruct b; unfold same_key; cbn [numeric];
    try (split; [discriminate|congruence]).
  rewrite String.eqb_eq. split; congruence.
Qed.

Lemma fresh_key_snoc (keys : list JValue) (x y : JValue) :
  fresh_key (keys ++ [x]) y = fresh_key keys y && negb (same_key x y).
Proof. unfold fresh_key. rewrite forallb_app. simpl. by rewrite andb_true_r. Qed.

Lemma fresh_key_cong (keys : list JValue) (x y : JValue) :
  same_key x y = true -> fresh_key keys x = fresh_key keys y.
Proof.
  intros Hxy. unfold fresh_key.
  induction keys as [|k keys IH]; [done|]. cbn [forallb]. rewrite IH.
  by rewrite (same_key_sym k x), (same_key_sym k y), (same_key_cong x y k).
Qed.

(** *** The counter *)

Lemma counter_incr_keys (counter : Counter) (key : JValue) :
  fst <$> counter_incr counter key
  = if fresh_key (fst <$> counter) key then (fst <$> counter) ++ [key]
    else fst <$> counter.
Proof.
  induction counter as [|[k n] counter IH]; [done|].
  cbn [counter_incr]. rewrite fmap_cons. cbn [fst fresh_key forallb].
  fold (fresh_key (fst <$> counter) key).
  destruct (same_key k key); cbn [negb andb]; [done|].
  rewrite fmap_cons, IH. cbn [fst].
  by destruct (fresh_key (fst <$> counter) key).
Qed.

Lemma counter_incr_get (counter : Counter) (key k : JValue) :
  counter_get (counter_incr counter key) k
  = counter_get counter k + (if same_key key k then 1 else 0).
Proof.
  unfold counter_get.
  induction counter as [|[k' n] counter IH]; cbn [counter_incr List.find fst].
  - destruct (same_key key k); done.
  - destruct (same_key k' key) eqn:Hkey; cbn [List.find fst].
    + rewrite <- (same_key_cong k' key k Hkey).
      destruct (same_key k' k); simpl; lia.
    + destruct (same_key k' k) eqn:Hk; [|apply IH].
      replace (same_key key k) with false; [simpl; lia|].
      rewrite same_key_sym, <- (same_key_cong k' k key Hk). done.
Qed.

Lemma filter_fresh_snoc (keys l : list JValue) (x : JValue) :
  List.filter (fresh_key (keys ++ [x])) l
  = List.filter (fresh_key keys)
      (List.filter (fun y => negb (same_key x y)) l).
Proof.
  induction l as [|y l IH]; [done|]. cbn [List.filter].
  rewrite fresh_key_snoc.
  destruct (same_key x y); cbn [negb]; rewrite ?andb_false_r, ?andb_true_r.
  - done.
  - cbn [List.filter]. destruct (fresh_key keys y); by rewrite IH.
Qed.

Lemma filter_fresh_known (keys l : list JValue) (x : JValue) :
  fresh_key keys x = false ->
  List.filter (fresh_key keys)
    (List.filter (fun y => negb (same_key x y)) l)
  = List.filter (fresh_key keys) l.
Proof.
  intros Hx. induction l as [|y l IH]; [done|]. cbn [List.filter].
  destruct (same_key x y) eqn:Hxy; cbn [negb List.filter].
  - by rewrite <- (fresh_key_cong keys x y Hxy), Hx.
  - destruct (fresh_key keys y); by rewrite IH.
Qed.

Lemma counter_keys_fold (l : list JValue) (counter : Counter) :
  fst <$> fold_left counter_incr l counter
  = (fst <$> counter)
    ++ List.filter (fresh_key (fst <$> counter)) (first_seen l).
Proof.
  revert counter. induction l as [|x l IH]; intros counter.
  - simpl. by rewrite app_nil_r.
  - cbn [fold_left first_seen List.filter]. rewrite IH, counter_incr_keys.
    destruct (fresh_key (fst <$> counter) x) eqn:Hx.
    + by rewrite filter_fresh_snoc, <- app_assoc.
    + by rewrite filter_fresh_known.
Qed.

Lemma counter_get_fold (l : list JValue) (counter : Counter) (k : JValue) :
  counter_get (fold_left counter_incr l counter) k
  = counter_get counter k + occurrences k l.
Proof.
  revert counter. induction l as [|x l IH]; intros counter.
  - unfold occurrences. simpl. lia.
  - cbn [fold_left]. rewrite IH, counter_incr_get.
    unfold occurrences. cbn [List.filter].
    destruct (same_key x k); simpl; lia.
Qed.

Lemma counter_of_list (l : list JValue) :
  fst <$> fold_left counter_incr l [] = first_seen l
  /\ forall k, counter_get (fold_left counter_incr l []) k = occurrences k l.
Proof.
  split.
  - rewrite counter_keys_fold. simpl.
    clear. induction (first_seen l) as [|y m IH]; [done|]. simpl.
    by rewrite IH.
  - intros k. by rewrite counter_get_fold.
Qed.

Lemma elem_of_filter_bool (p : JValue -> bool) (l : list JValue) (x : JValue) :
  x ∈ List.filter p l <-> x ∈ l /\ p x = true.
Proof. rewrite !list_elem_of_In. apply filter_In. Qed.

Lemma distinct_keys_filter (p : JValue -> bool) (keys : list JValue) :
  distinct_keys keys -> distinct_keys (List.filter p keys).
Proof.
  induction keys as [|k keys IH]; [done|].
  intros (Hk & Hrest & Hkeys). cbn [List.filter].
  destruct (p k); [|by apply IH].
  split; [done|]. split; [|by apply IH].
  apply Forall_forall. intros k' Hk'.
  apply elem_of_filter_bool in Hk' as [Hk' _].
  by apply (proj1 (Forall_forall _ _) Hrest).
Qed.

Lemma distinct_keys_first_seen (l : list JValue) :
  Forall (fun ing => hashable ing = true) l -> distinct_keys (first_seen l).
Proof.
  induction 1 as [|x l Hx _ IH]; [done|]. cbn [first_seen distinct_keys].
  split; [by apply same_key_refl|]. split; [|by apply distinct_keys_filter].
  apply Forall_forall. intros k Hk.
  apply elem_of_filter_bool in Hk as [_ Hk].
  by destruct (same_key x k).
Qed.

Lemma distinct_keys_NoDup (keys : list JValue) :
  distinct_keys keys -> NoDup keys.
Proof.
  induction keys as [|k keys IH]; [constructor|].
  intros (Hk & Hrest & Hkeys). constructor; [|by apply IH].
  intros Hin. apply (proj1 (Forall_forall _ _) Hrest) in Hin. congruence.
Qed.

Lemma distinct_keys_same (keys : list JValue) (a b : JValue) :
  distinct_keys keys -> a ∈ keys -> b ∈ keys -> same_key a b = true -> a = b.
Proof.
  induction keys as [|k keys IH].
  - intros _ Ha. by apply elem_of_nil in Ha.
  - intros (Hk & Hrest & Hkeys) Ha Hb Hab.
    apply elem_of_cons in Ha as [->|Ha], Hb as [->|Hb]; [done| | |by apply IH].
    + apply (proj1 (Forall_forall _ _) Hrest) in Hb. congruence.
    + apply (proj1 (Forall_forall _ _) Hrest) in Ha.
      rewrite same_key_sym in Ha. congruence.
Qed.

Lemma elem_of_first_seen (l : list JValue) (k : JValue) :
  k ∈ first_seen l -> k ∈ l.
Proof.
  revert k. induction l as [|x l IH]; intros k; [done|]. cbn [first_seen].
  intros [->|Hk]%elem_of_cons; [apply list_elem_of_here|].
  apply elem_of_filter_bool in Hk as [Hk _].
  by apply list_elem_of_further, IH.
Qed.

Lemma first_seen_covers (l : list JValue) (e : JValue) :
  Forall (fun ing => hashable ing = true) l ->
  e ∈ l -> exists k, k ∈ first_seen l /\ same_key k e = true.
Proof.
  induction 1 as [|x l Hx _ IH]; intros He; [by apply elem_of_nil in He|].
  cbn [first_seen]. apply elem_of_cons in He as [->|He].
  - exists x. split; [apply list_elem_of_here|by apply same_key_refl].
  - destruct (IH He) as (k & Hk & Hke).
    destruct (same_key x k) eqn:Hxk.
    + exists x. split; [apply list_elem_of_here|by eapply same_key_trans].
    + exists k. split; [|done].
      apply list_elem_of_further, elem_of_filter_bool. by rewrite Hxk.
Qed.

Lemma counter_get_elem (counter : Counter) (k : JValue) (n : nat) :
  distinct_keys (fst <$> counter) ->
  (k, n) ∈ counter -> counter_get counter k = n.
Proof.
  unfold counter_get.
  induction counter as [|[k' n'] counter IH]; intros Hd Hin.
  - by apply elem_of_nil in Hin.
  - rewrite fmap_cons in Hd. destruct Hd as (Hk' & Hrest & Hd).
    cbn [List.find fst] in *.
    apply elem_of_cons in Hin as [[= -> ->]|Hin].
    + by rewrite Hk'.
    + assert (same_key k' k = false) as ->; [|by apply IH].
      apply (proj1 (Forall_forall _ _) Hrest).
      apply list_elem_of_fmap. by exists (k, n).
Qed.

Lemma counter_counts (counter : Counter) :
  distinct_keys (fst <$> counter) ->
  snd <$> counter = counter_get counter <$> (fst <$> counter).
Proof.
  intros Hd. rewrite <- list_fmap_compose.
  apply list_fmap_ext. intros i [k n] Hi. simpl.
  symmetry. apply counter_get_elem; [done|].
  by eapply list_elem_of_lookup_2.
Qed.

(** *** Text entries *)

Lemma text_first_seen_snoc (l : list string) (x : string) :
  text_first_seen (l ++ [x])
  = if decide (x ∈ l) then text_first_seen l else text_first_seen l ++ [x].
Proof.
  unfold text_first_seen. rewrite reverse_snoc. cbn [remove_dups].
  destruct (decide_rel elem_of x (reverse l)) as [Hin|Hout];
    case_decide as H; try done.
  - destruct H. by apply elem_of_reverse.
  - destruct Hout. by apply elem_of_reverse_2.
  - by rewrite reverse_cons.
Qed.

Lemma elem_of_text_first_seen (l : list string) (x : string) :
  x ∈ text_first_seen l <-> x ∈ l.
Proof.
  unfold text_first_seen.
  by rewrite elem_of_reverse, elem_of_remove_dups, elem_of_reverse.
Qed.

Lemma text_first_seen_cons (l : list string) (x : string) :
  text_first_seen (x :: l)
  = x :: filter (fun k => k <> x) (text_first_seen l).
Proof.
  induction l as [|y l IH] using rev_ind; [done|].
  rewrite app_comm_cons, !text_first_seen_snoc, IH.
  destruct (decide (y ∈ l)) as [Hin|Hout].
  - rewrite decide_True; [done|]. by apply list_elem_of_further.
  - rewrite filter_app. destruct (decide (y = x)) as [->|Hne].
    + rewrite decide_True by apply list_elem_of_here.
      rewrite filter_cons_False, filter_nil, app_nil_r; [done|].
      by intros [].
    + rewrite decide_False by (intros [?|?]%elem_of_cons; congruence).
      by rewrite filter_cons_True, filter_nil.
Qed.

Lemma filter_text (x : string) (l : list string) :
  List.filter (fun y => negb (same_key (JStr x) y)) (JStr <$> l)
  = JStr <$> filter (fun k => k <> x) l.
Proof.
  induction l as [|k l IH]; [done|]. rewrite fmap_cons. cbn [List.filter].
  change (same_key (JStr x) (JStr k)) with (String.eqb x k). destruct (String.eqb_spec x k) as [->|Hne]; cbn [negb].
  - by rewrite filter_cons_False by (by intros []).
  - rewrite filter_cons_True by congruence. by rewrite fmap_cons, IH.
Qed.

Lemma first_seen_text (l : list string) :
  first_seen (JStr <$> l) = JStr <$> text_first_seen l.
Proof.
  induction l as [|x l IH]; [done|].
  rewrite fmap_cons. cbn [first_seen].
  by rewrite IH, filter_text, text_first_seen_cons, fmap_cons.
Qed.

Lemma occurrences_text (k : string) (l : list string) :
  occurrences (JStr k) (JStr <$> l) = text_occurrences k l.
Proof.
  unfold occurrences, text_occurrences.
  induction l as [|x l IH]; [done|]. rewrite fmap_cons. cbn [List.filter].
  change (same_key (JStr x) (JStr k)) with (String.eqb x k). destruct (String.eqb_spec x k) as [->|Hne].
  - rewrite filter_cons_True by done. simpl. by rewrite IH.
  - by rewrite filter_cons_False by done.
Qed.

(** [most_common_1] picks the first item with the largest count. *)
Lemma max_item_loop (rest : Counter) (best : JValue * nat) :
  exists top,
    fold_left (fun best item => if snd best <? snd item then item else best)
              rest best = top
    /\ ((top = best /\ Forall (fun item => snd item <= snd best) rest)
        \/ (exists l1 l2,
              rest = l1 ++ top :: l2 /\ snd best < snd top
              /\ Forall (fun item => snd item < snd top) l1
              /\ Forall (fun item => snd item <= snd top) l2)).
Proof.
  revert best. induction rest as [|item rest IH]; intros best; simpl.
  - exists best. split; [done|]. left. by split.
  - destruct (Nat.ltb_spec (snd best) (snd item)) as [Hlt|Hge].
    + destruct (IH item)
        as (top & Htop & [[-> Hall]|(l1 & l2 & -> & Hr & H1 & H2)]).
      * exists item. split; [done|]. right. exists [], rest. by repeat split.
      * exists top. split; [done|]. right. exists (item :: l1), l2.
        repeat split; [lia| |done]. constructor; [lia|done].
    + destruct (IH best)
        as (top & Htop & [[-> Hall]|(l1 & l2 & -> & Hr & H1 & H2)]).
      * exists best. split; [done|]. left. split; [done|]. by constructor.
      * exists top. split; [done|]. right. exists (item :: l1), l2.
        repeat split; [done| |done]. constructor; [lia|done].
Qed.

Lemma most_common_1_first_max (counter : Counter) :
  counter <> [] ->
  exists earlier k n later,
    most_common_1 counter = [(k, n)]
    /\ counter = earlier ++ (k, n) :: later
    /\ Forall (fun item => snd item < n) earlier
    /\ Forall (fun item => snd item <= n) later.
Proof.
  destruct counter as [|first rest]; [done|]. intros _. simpl.
  destruct (max_item_loop rest first)
    as (top & -> & [[-> Hall]|(l1 & l2 & -> & Hr & H1 & H2)]).
  - destruct first as [k n]. exists [], k, n, rest. by repeat split.
  - destruct top as [k n]. simpl in *.
    exists (first :: l1), k, n, l2.
    repeat split; [|done]. constructor; [lia|done].
Qed.

(** X17.  The timestamp that [save_memory] writes is read back by
    [analytics_data]: for every moment with a four-digit year the formatted
    text is not empty and parses, under the same format, to the weekday of
    that moment, which is one of the seven buckets. *)
Theorem cooked_at_round_trip (now : DateTime) :
  valid_datetime now ->
  strftime_cooked_at now <> ""
  /\ strptime_weekday (strftime_cooked_at now) = Some (weekday now)
  /\ weekday now < 7.
Proof.
  intros Hvalid. pose proof (strptime_strftime now Hvalid) as Hparse.
  split; [apply strftime_cooked_at_nonempty|]. split; [done|].
  by eapply strptime_weekday_range.
Qed.

Lemma cooked_at_round_trip_witness :
  strftime_cooked_at sample_now <> ""
  /\ strptime_weekday (strftime_cooked_at sample_now) = Some (weekday sample_now)
  /\ weekday sample_now < 7.
Proof. apply (cooked_at_round_trip sample_now sample_now_valid). Defined.

(** X18.  Whenever [analytics_data] answers, for any session, the answer
    has exactly seven weekday buckets and counts every memory of the
    session; a timestamp that parses always names a bucket from 0 to 6, so
    the update of [weekly_calories] never falls outside the list. *)
Theorem analytics_data_shape (session : Session) (summary : AnalyticsSummary) :
  analytics_data session = Ok summary ->
  length (weeklyCalories summary) = 7
  /\ totalRecipes summary = length (default [] (session_memories session))
  /\ totalCalories summary
     = calories_total (default [] (session_memories session))
  /\ length (ingredientLabels summary) = length (ingredientCounts summary)
  /\ forall text weekday,
       strptime_weekday text = Some weekday -> weekday < 7.
Proof.
  intros Hok. apply analytics_data_inv in Hok as (st & Hloop & ->).
  apply analytics_loop_inv in Hloop as (Htotal & Hlen & _); [|done].
  simpl. split; [done|]. split; [done|]. split; [by rewrite Htotal|].
  split; [by rewrite !length_fmap|]. apply strptime_weekday_range.
Qed.

Lemma analytics_data_shape_witness :
  length [180; 90; 0; 0; 0; 0; 0]%Z = 7 /\ 4 = length [m0; undated; m1; m2].
Proof.
  pose proof (analytics_data_shape (session_with [m0; undated; m1; m2]) _
                analytics_data_undated) as (H1 & H2 & _).
  exact (conj H1 H2).
Defined.

(** X19.  Whenever [analytics_data] answers, [ingredientLabels] are the
    distinct ingredients of all memories in the order in which they are first
    seen, without repetition, and [ingredientCounts] gives, label by label,
    the number of times the ingredient occurs.  Entries are compared as
    dictionary keys: no two labels are the same key, every label is an
    entry, every entry is the key of a label.  For memories whose
    ingredients are all text, the labels are the distinct texts in the order
    of their first occurrence and the counts are the numbers of their
    occurrences. *)
Theorem analytics_data_ingredient_counts
    (session : Session) (summary : AnalyticsSummary) :
  analytics_data session = Ok summary ->
  let entries := all_ingredients (default [] (session_memories session)) in
  ingredientLabels summary = first_seen entries
  /\ NoDup (ingredientLabels summary)
  /\ (forall a b, a ∈ ingredientLabels summary -> b ∈ ingredientLabels summary ->
        same_key a b = true -> a = b)
  /\ (forall k, k ∈ ingredientLabels summary -> k ∈ entries)
  /\ (forall e, e ∈ entries ->
        exists k, k ∈ ingredientLabels summary /\ same_key k e = true)
  /\ ingredientCounts summary
     = (fun k => occurrences k entries) <$> ingredientLabels summary
  /\ (forall texts, entries = JStr <$> texts ->
        ingredientLabels summary = JStr <$> text_first_seen texts
        /\ NoDup (text_first_seen texts)
        /\ (forall k, k ∈ text_first_seen texts <-> k ∈ texts)
        /\ ingredientCounts summary
           = (fun k => text_occurrences k texts) <$> text_first_seen texts).
Proof.
  intros Hok entries. apply analytics_data_inv in Hok as (st & Hloop & ->).
  apply analytics_loop_inv in Hloop as (_ & _ & _ & Hhash & Hcounter); [|done].
  simpl in Hcounter. fold entries in Hcounter, Hhash.
  destruct (counter_of_list entries) as [Hkeys Hget].
  pose proof (distinct_keys_first_seen entries Hhash) as Hdistinct.
  assert (snd <$> ingredient_counter st
          = (fun k => occurrences k entries) <$> first_seen entries)
    as Hcounts.
  { rewrite Hcounter, counter_counts by (by rewrite Hkeys).
    rewrite Hkeys. apply list_fmap_ext. intros i k _. apply Hget. }
  cbn [summary_of ingredientLabels ingredientCounts].
  rewrite Hcounts, Hcounter, Hkeys.
  split; [done|]. split; [by apply distinct_keys_NoDup|].
  split; [intros a b; by apply distinct_keys_same|].
  split; [intros k; apply elem_of_first_seen|].
  split; [intros e; by apply first_seen_covers|].
  split; [done|].
  intros texts Htexts. rewrite Htexts, first_seen_text.
  split; [done|]. split.
  { unfold text_first_seen. rewrite reverse_Permutation.
    apply NoDup_remove_dups. }
  split; [intros k; apply elem_of_text_first_seen|].
  rewrite <- list_fmap_compose. apply list_fmap_ext. intros i k _. simpl.
  apply occurrences_text.
Qed.

Lemma analytics_data_ingredient_counts_witness :
  JStr <$> ["lentil"; "onion"; "rice"; "curd"]
  = first_seen (all_ingredients [m0; undated; m1; m2])
  /\ [1; 3; 1; 1]
     = (fun k => text_occurrences k
                   ["lentil"; "onion"; "onion"; "rice"; "onion"; "curd"])
       <$> text_first_seen
             ["lentil"; "onion"; "onion"; "rice"; "onion"; "curd"].
Proof.
  pose proof (analytics_data_ingredient_counts
                (session_with [m0; undated; m1; m2]) _ analytics_data_undated)
    as (Hlabels & _ & _ & _ & _ & _ & Htext).
  split; [exact Hlabels|].
  exact (proj2 (proj2 (proj2
           (Htext ["lentil"; "onion"; "onion"; "rice"; "onion"; "curd"]
                  eq_refl)))).
Defined.

(** The first key with the largest count of a counter that was filled from
    a list of entries. *)
Lemma most_common_of_list (entries : list JValue) :
  Forall (fun ing => hashable ing = true) entries ->
  entries <> [] ->
  exists top n earlier later,
    most_common_1 (fold_left counter_incr entries []) = [(top, n)]
    /\ first_seen entries = earlier ++ top :: later
    /\ Forall (fun k => occurrences k entries < occurrences top entries)
              earlier
    /\ Forall (fun k => occurrences k entries <= occurrences top entries)
              later.
Proof.
  intros Hhash Hne.
  destruct (counter_of_list entries) as [Hkeys Hget].
  pose proof (distinct_keys_first_seen entries Hhash) as Hdistinct.
  rewrite <- Hkeys in Hdistinct.
  assert (fold_left counter_incr entries [] <> []) as Hcne.
  { intros Hc. rewrite Hc in Hkeys. by destruct entries. }
  destruct (most_common_1_first_max _ Hcne)
    as (earlier & k & n & later & Hmost & Hsplit & Hearlier & Hlater).
  assert (Hcount : forall k' n',
            (k', n') ∈ fold_left counter_incr entries [] ->
            occurrences k' entries = n').
  { intros k' n' Hin. rewrite <- Hget. by apply counter_get_elem. }
  assert (occurrences k entries = n) as Hk.
  { apply Hcount. rewrite Hsplit. apply elem_of_app. right.
    apply list_elem_of_here. }
  exists k, n, (fst <$> earlier), (fst <$> later).
  split; [done|].
  rewrite <- Hkeys. rewrite Hsplit at 1. rewrite fmap_app, fmap_cons.
  split; [done|]. rewrite Hk. split.
  - apply Forall_fmap, Forall_forall. intros [k' n'] Hin. simpl.
    rewrite (Hcount k' n').
    + by apply (proj1 (Forall_forall _ _) Hearlier (k', n')).
    + rewrite Hsplit. apply elem_of_app. by left.
  - apply Forall_fmap, Forall_forall. intros [k' n'] Hin. simpl.
    rewrite (Hcount k' n').
    + by apply (proj1 (Forall_forall _ _) Hlater (k', n')).
    + rewrite Hsplit. apply elem_of_app. right.
      by apply list_elem_of_further.
Qed.

(** X20.  Whenever [analytics_data] answers, [topIngredient] is ["-"] if
    the memories hold no ingredient at all; otherwise it is an ingredient
    that occurs most often, and among those that occur equally often the
    one that was seen first.  Entries are compared as dictionary keys; for
    memories whose ingredients are all text, the top ingredient is the text
    that occurs most often, the first seen among equals. *)
Theorem analytics_data_top_ingredient
    (session : Session) (summary : AnalyticsSummary) :
  analytics_data session = Ok summary ->
  let entries := all_ingredients (default [] (session_memories session)) in
  (entries = [] -> topIngredient summary = JStr "-")
  /\ (entries <> [] ->
      exists earlier later,
        first_seen entries = earlier ++ topIngredient summary :: later
        /\ Forall (fun k => occurrences k entries
                            < occurrences (topIngredient summary) entries)
                  earlier
        /\ Forall (fun k => occurrences k entries
                            <= occurrences (topIngredient summary) entries)
                  later)
  /\ (forall texts, entries = JStr <$> texts -> texts <> [] ->
      exists top earlier later,
        topIngredient summary = JStr top
        /\ text_first_seen texts = earlier ++ top :: later
        /\ Forall (fun k => text_occurrences k texts
                            < text_occurrences top texts) earlier
        /\ Forall (fun k => text_occurrences k texts
                            <= text_occurrences top texts) later).
Proof.
  intros Hok entries. apply analytics_data_inv in Hok as (st & Hloop & ->).
  apply analytics_loop_inv in Hloop as (_ & _ & _ & Hhash & Hcounter); [|done].
  simpl in Hcounter. fold entries in Hcounter, Hhash.
  cbn [summary_of topIngredient]. rewrite Hcounter.
  split; [|split].
  - by intros ->.
  - intros Hne.
    destruct (most_common_of_list entries Hhash Hne)
      as (top & n & earlier & later & -> & Hsplit & Hearlier & Hlater).
    by exists earlier, later.
  - intros texts Htexts Hne.
    assert (entries <> []) as Hne' by (rewrite Htexts; by destruct texts).
    destruct (most_common_of_list entries Hhash Hne')
      as (top & n & earlier & later & -> & Hsplit & Hearlier & Hlater).
    rewrite Htexts, first_seen_text in Hsplit.
    apply fmap_app_inv in Hsplit as (earlier' & rest & -> & Hrest & ->).
    symmetry in Hrest.
    apply fmap_cons_inv in Hrest as (top' & later' & -> & -> & ->).
    exists top', earlier', later'. split; [done|]. split; [done|].
    rewrite Htexts in Hearlier, Hlater.
    apply Forall_fmap in Hearlier, Hlater. split.
    + eapply Forall_impl; [exact Hearlier|]. intros k. simpl.
      by rewrite !occurrences_text.
    + eapply Forall_impl; [exact Hlater|]. intros k. simpl.
      by rewrite !occurrences_text.
Qed.

Lemma analytics_data_top_ingredient_witness :
  (exists earlier later,
     first_seen (all_ingredients [m0; undated; m1; m2])
     = earlier ++ JStr "onion" :: later
     /\ Forall (fun k => occurrences k (all_ingredients [m0; undated; m1; m2])
                         < occurrences (JStr "onion")
                             (all_ingredients [m0; undated; m1; m2])) earlier
     /\ Forall (fun k => occurrences k (all_ingredients [m0; undated; m1; m2])
                         <= occurrences (JStr "onion")
                              (all_ingredients [m0; undated; m1; m2])) later)
  /\ (exists top earlier later,
        JStr "onion" = JStr top
        /\ text_first_seen ["lentil"; "onion"; "onion"; "rice"; "onion"; "curd"]
           = earlier ++ top :: later
        /\ Forall (fun k =>
                     text_occurrences k
                       ["lentil"; "onion"; "onion"; "rice"; "onion"; "curd"]
                     < text_occurrences top
                         ["lentil"; "onion"; "onion"; "rice"; "onion"; "curd"])
                  earlier
        /\ Forall (fun k =>
                     text_occurrences k
                       ["lentil"; "onion"; "onion"; "rice"; "onion"; "curd"]
                     <= text_occurrences top
                          ["lentil"; "onion"; "onion"; "rice"; "onion"; "curd"])
                  later).
Proof.
  split.
  - apply (proj1 (proj2 (analytics_data_top_ingredient
                           (session_with [m0; undated; m1; m2]) _
                           analytics_data_undated))).
    discriminate.
  - apply (proj2 (proj2 (analytics_data_top_ingredient
                           (session_with [m0; undated; m1; m2]) _
                           analytics_data_undated))
             ["lentil"; "onion"; "onion"; "rice"; "onion"; "curd"] eq_refl).
    discriminate.
Defined.

(** X21.  Whenever [analytics_data] answers, the seven buckets add up to
    the calories of the memories that carry a timestamp; when every memory
    carries one, the buckets add up to [totalCalories]. *)
Theorem analytics_data_weekly_sum
    (session : Session) (summary : AnalyticsSummary) :
  analytics_data session = Ok summary ->
  let memories := default [] (session_memories session) in
  sum_Z (weeklyCalories summary) = dated_calories memories
  /\ (Forall (fun mem => truthy (cooked_at_value mem) = true) memories ->
      sum_Z (weeklyCalories summary) = totalCalories summary).
Proof.
  intros Hok memories. apply analytics_data_inv in Hok as (st & Hloop & ->).
  apply analytics_loop_inv in Hloop as (Htotal & _ & Hsum & _); [|done].
  fold memories in Htotal, Hsum. simpl in *.
  split; [rewrite Hsum; by vm_compute|].
  intros Hall. rewrite Hsum, Htotal. simpl.
  replace (sum_Z [0; 0; 0; 0; 0; 0; 0]%Z) with 0%Z by done.
  f_equal. clear -Hall. induction Hall as [|mem memories Hmem _ IH]; [done|].
  simpl. rewrite Hmem. by rewrite IH.
Qed.

Lemma analytics_data_weekly_sum_witness :
  sum_Z [180; 90; 0; 0; 0; 0; 0]%Z = dated_calories [m0; undated; m1; m2].
Proof.
  apply (analytics_data_weekly_sum (session_with [m0; undated; m1; m2]) _
           analytics_data_undated).
Defined.
